(** * Harvesting and reconciliation of third-party observation ledgers

    A shallow embedding of the scraping pipeline of the planning-applications
    repository: the shard computation, the per-item harvest of [0.scrape.py],
    the failure classifier of [1.collect_failures.py], the two retry rounds
    [2a.rerun_failed_observations.py] and [2b.rerun_download_failures.py], the
    sharded round-2 retry [3c.rerun_remaining_download_failures.py] with the
    selection of its input by [3b.remaining_download_failures.py], the merge
    of [3a.merge_outputs.py] and the second merge of
    [3d.merge_outputs_again.py].

    The browser, the portal and the file system are external: each function
    that talks to them takes an explicit description of what the portal
    answers (navigation outcomes, the text of the summary region on
    successive reads, the pages of the listing with the outcome of resolving
    each icon, the files already on disk). *)

From Stdlib Require Import ZArith Lia String Ascii List DecimalString DecimalNat.
From stdpp Require Import gmap strings list fin_maps.

Local Open Scope string_scope.
Local Open Scope list_scope.
Local Open Scope Z_scope.

(** ** Python string operations used by the scripts *)

Module PyStr.

(** [needle in s] on [str]. *)
Fixpoint contains (needle s : string) : bool :=
  if String.prefix needle s then true
  else match s with
       | EmptyString => false
       | String _ s' => contains needle s'
       end.

(** [s.split(sep)] for a one-character separator: never returns the empty
    list, [''.split(';')] is [['']]. *)
Fixpoint split (sep : ascii) (s : string) : list string :=
  match s with
  | EmptyString => [EmptyString]
  | String c s' =>
      if Ascii.eqb c sep then EmptyString :: split sep s'
      else match split sep s' with
           | [] => [String c EmptyString]
           | p :: ps => String c p :: ps
           end
  end.

(** [sep.join(parts)]. *)
Definition join (sep : string) (parts : list string) : string :=
  String.concat sep parts.

(** ASCII white space, as removed by [str.strip()]. *)
Definition is_space (c : ascii) : bool :=
  let n := nat_of_ascii c in
  ((9 <=? n) && (n <=? 13) || (28 <=? n) && (n <=? 32))%nat.

Fixpoint lstrip (s : string) : string :=
  match s with
  | EmptyString => EmptyString
  | String c s' => if is_space c then lstrip s' else s
  end.

(** Drops trailing white space: a character is kept when it is not white
    space or when something is kept after it. *)
Fixpoint rstrip (s : string) : string :=
  match s with
  | EmptyString => EmptyString
  | String c s' =>
      match rstrip s' with
      | EmptyString => if is_space c then EmptyString else String c EmptyString
      | t => String c t
      end
  end.

Definition strip (s : string) : string := rstrip (lstrip s).

(** [str(cell)] of a text cell read back by [pandas.read_csv]: an empty
    cell is read as NaN, whose [str] is ['nan']. *)
Definition str_of_cell (cell : string) : string :=
  if decide (cell = EmptyString) then "nan" else cell.

(** Truthiness of a [str]. *)
Definition truthy (s : string) : bool :=
  match s with EmptyString => false | _ => true end.

End PyStr.

(** ** Ledger rows *)

(** The eight columns every ledger file has, in the order the scripts build
    the [record] dictionary. *)
Record Row := mkRow {
  worker_id : Z;
  row_index : Z;
  application_number : string;
  no_record_found : Z;
  has_third_party_observation : bool;
  n_observation_letters : Z;
  observation_urls : string;
  error : string
}.

Definition DOWNLOAD_FAILED : string := "DOWNLOAD_FAILED".
Definition EXISTS : string := "EXISTS".

(** [len(urls)], [len(urls) > 0] and [";".join(urls)], the three fields the
    passes derive from a position list. *)
Definition len (urls : list string) : Z := Z.of_nat (length urls).

Definition set_observations (r : Row) (urls : list string) : Row :=
  {| worker_id := worker_id r;
     row_index := row_index r;
     application_number := application_number r;
     no_record_found := no_record_found r;
     has_third_party_observation := bool_decide (0 < len urls);
     n_observation_letters := len urls;
     observation_urls := PyStr.join ";" urls;
     error := error r |}.

Definition set_no_record_found (r : Row) : Row :=
  {| worker_id := worker_id r;
     row_index := row_index r;
     application_number := application_number r;
     no_record_found := 1;
     has_third_party_observation := has_third_party_observation r;
     n_observation_letters := n_observation_letters r;
     observation_urls := observation_urls r;
     error := error r |}.

Definition set_error (r : Row) (e : string) : Row :=
  {| worker_id := worker_id r;
     row_index := row_index r;
     application_number := application_number r;
     no_record_found := no_record_found r;
     has_third_party_observation := has_third_party_observation r;
     n_observation_letters := n_observation_letters r;
     observation_urls := observation_urls r;
     error := e |}.

Definition set_observation_urls (r : Row) (u : string) : Row :=
  {| worker_id := worker_id r;
     row_index := row_index r;
     application_number := application_number r;
     no_record_found := no_record_found r;
     has_third_party_observation := has_third_party_observation r;
     n_observation_letters := n_observation_letters r;
     observation_urls := u;
     error := error r |}.

(** [text.split(";") if text else []]: the position list of a row, read
    back from its [observation_urls]. *)
Definition positions_of (text : string) : list string :=
  if PyStr.truthy text then PyStr.split ";" text else [].

(** A ledger file: [None] when the file does not exist. *)
Definition ledger_file := option (list Row).

(** The [row_index] column of a ledger file, as a set: the body shared by
    [load_done_rows] and [load_done_row_indices]. *)
Definition load_done (f : ledger_file) : gset Z :=
  match f with
  | None => ∅
  | Some rows => list_to_set (row_index <$> rows)
  end.

(** [append_record]: the file is created on the first write. *)
Definition append_record (f : ledger_file) (r : Row) : ledger_file :=
  match f with
  | None => Some [r]
  | Some rows => Some (rows ++ [r])
  end.

(** ** Work partitioner *)

Module Partition.

(** [chunk = total // N_WORKERS]. *)
Definition chunk (total n_workers : Z) : Z := total / n_workers.

Definition start (total n_workers w : Z) : Z := w * chunk total n_workers.

Definition stop (total n_workers w : Z) : Z :=
  if decide (w = n_workers - 1) then total
  else (w + 1) * chunk total n_workers.

(** Index normalisation of a Python slice bound against a length. *)
Definition clamp (n i : Z) : Z :=
  if decide (i < 0) then Z.max 0 (n + i) else Z.min i n.

(** [df.iloc[a:b]]. *)
Definition iloc {A} (a b : Z) (df : list A) : list A :=
  let n := Z.of_nat (length df) in
  let a' := clamp n a in
  let b' := clamp n b in
  take (Z.to_nat (b' - a')) (drop (Z.to_nat a') df).

(** [df_chunk = df.iloc[start:end]]. *)
Definition df_chunk {A} (df : list A) (n_workers w : Z) : list A :=
  let total := Z.of_nat (length df) in
  iloc (start total n_workers w) (stop total n_workers w) df.

End Partition.

(** ** The portal, as one visit of an item sees it *)

Module Portal.

(** What a Python call does: it returns a value or raises; [exn] is the
    [repr] of the exception. *)
Inductive outcome (A : Type) :=
| Returned (a : A)
| Raised (exn : string).
Arguments Returned {A} a.
Arguments Raised {A} exn.

(** What the script that makes the visit gets from one observation icon:
    [Resolved doc_url] when the steps it guards with the [try] of the icon
    all went through, [Unresolved] when one of them raised. The guarded
    steps differ from one script to the other: in [0.scrape.py] the scroll
    to the icon, the click, the URL of the popup or of the download and the
    fetch to the output file; in [2a] and [2b] the same but the scroll,
    whose failure is caught apart and ignored; in [3c] and [3f] the click,
    the URL of the popup and the fetch. A visit describes what one run of
    one script meets: nothing relates the outcome of an icon for one script
    to its outcome for another. *)
Inductive resolution :=
| Resolved (doc_url : string)
| Unresolved.

(** The pages of a listing that a crawl walks through, with the icons that
    match the observation selector on each page, in document order.
    [LastPage]: the next button is absent or disabled. [NextPage]: it is
    clicked and [rest] is displayed. [NextRaises]: reading or clicking it
    raises. A listing whose next button never gets disabled makes the
    [while True] of the source run forever and is not a value of this type. *)
Inductive listing :=
| LastPage (icons : list resolution)
| NextPage (icons : list resolution) (rest : listing)
| NextRaises (icons : list resolution) (exn : string).

Record visit := mkVisit {
  (** [goto k]: what the [k]-th call of [page.goto] for this item does,
      counted from 1; [None] when it returns, [Some e] when it raises [e]. *)
  goto : nat -> option string;
  (** The element [#searchResult_info]: [None] when the locator counts no
      element; otherwise [reads k] is the [k]-th call of [inner_text],
      counted from 1, with [None] when that call raises. *)
  summary : option (nat -> option string);
  pages : listing;
  (** [obs_file_exists k]: the file [<app>_obs_<k>.pdf] is in the download
      directory when the crawl looks for it. *)
  obs_file_exists : nat -> bool
}.

(** Calls of [page.goto] made for one item, the [time.sleep] arguments
    between them, and the exception the navigation ended with, if any. *)
Record navigation := mkNavigation {
  attempts_made : nat;
  sleeps : list Z;
  raised : option string
}.

Fixpoint icon_count (l : listing) : nat :=
  match l with
  | LastPage icons => length icons
  | NextPage icons rest => length icons + icon_count rest
  | NextRaises icons _ => length icons
  end.

(** All the icons of the listing, page after page. *)
Fixpoint listing_icons (l : listing) : list resolution :=
  match l with
  | LastPage icons => icons
  | NextPage icons rest => icons ++ listing_icons rest
  | NextRaises icons _ => icons
  end.

Fixpoint next_never_raises (l : listing) : bool :=
  match l with
  | LastPage _ => true
  | NextPage _ rest => next_never_raises rest
  | NextRaises _ _ => false
  end.

End Portal.

Import Portal.

Definition NO_RECORDS_MARKER : string := "0 to 0 of 0".

(** The work item of a harvest or of a page-level retry. *)
Record item := mkItem {
  item_worker_id : Z;
  item_row_index : Z;
  item_application_number : string
}.

(** The [record] dictionary every pass starts an item with. *)
Definition blank_record (it : item) : Row :=
  {| worker_id := item_worker_id it;
     row_index := item_row_index it;
     application_number := item_application_number it;
     no_record_found := 0;
     has_third_party_observation := false;
     n_observation_letters := 0;
     observation_urls := EmptyString;
     error := EmptyString |}.

(** ** [0.scrape.py]: the harvest worker *)

Module Scrape.

(** [page_has_no_records]: one read of the summary region. *)
Definition page_has_no_records (v : visit) : bool :=
  match summary v with
  | None => false
  | Some reads =>
      match reads 1%nat with
      | Some text => PyStr.contains NO_RECORDS_MARKER text
      | None => false
      end
  end.

(** The [for i in range(n)] loop over the icons of one page. *)
Fixpoint resolve_icons (icons : list resolution) (urls : list string) : list string :=
  match icons with
  | [] => urls
  | Resolved doc_url :: rest => resolve_icons rest (urls ++ [doc_url])
  | Unresolved :: rest => resolve_icons rest (urls ++ [DOWNLOAD_FAILED])
  end.

(** The [while True] loop over the pages, with the [urls] accumulated so
    far. *)
Fixpoint crawl (l : listing) (urls : list string) : outcome (list string) :=
  match l with
  | LastPage icons => Returned (resolve_icons icons urls)
  | NextPage icons rest => crawl rest (resolve_icons icons urls)
  | NextRaises icons exn => Raised exn
  end.

Definition extract_all_pages_observations (l : listing) : outcome (list string) :=
  crawl l [].

(** The single [page.goto] of the worker. *)
Definition navigate (v : visit) : navigation :=
  {| attempts_made := 1; sleeps := []; raised := goto v 1%nat |}.

(** The body of the [for idx, row in df_chunk.iterrows()] loop, from the
    construction of [record] to the row handed to [append_record]. *)
Definition harvest (it : item) (v : visit) : Row :=
  let record := blank_record it in
  match raised (navigate v) with
  | Some e => set_error record e
  | None =>
      if page_has_no_records v then set_no_record_found record
      else match extract_all_pages_observations (pages v) with
           | Returned urls => set_observations record urls
           | Raised e => set_error record e
           end
  end.

(** A row of the input CSV. *)
Record application := mkApplication {
  planning_authority : string;
  application_number_cell : string
}.

(** [pd.read_csv] labels the rows 0, 1, ...; the filter on the planning
    authority keeps the labels. *)
Definition dublin_rows (csv : list application) : list (Z * application) :=
  filter (fun x => planning_authority x.2 = "Dublin City Council")
         (zip (seqZ 0 (Z.of_nat (length csv))) csv).

Definition item_of (worker : Z) (x : Z * application) : item :=
  {| item_worker_id := worker;
     item_row_index := x.1;
     item_application_number :=
       PyStr.strip (PyStr.str_of_cell (application_number_cell x.2)) |}.

(** One iteration of the main loop: [done_rows] is loaded once, before the
    loop, and not updated. *)
Definition step (worker : Z) (portal : Z -> visit) (done_rows : gset Z)
    (out : ledger_file) (x : Z * application) : ledger_file :=
  if decide (x.1 ∈ done_rows) then out
  else append_record out (harvest (item_of worker x) (portal x.1)).

(** [main]: the ledger file after the run, from the ledger file before. *)
Definition main (csv : list application) (n_workers worker : Z)
    (portal : Z -> visit) (out : ledger_file) : ledger_file :=
  let df_chunk := Partition.df_chunk (dublin_rows csv) n_workers worker in
  foldl (step worker portal (load_done out)) out df_chunk.

End Scrape.

(** ** [0.tester.py]: the no-records test with confirmation *)

Module Tester.

Definition page_has_no_records (v : visit) : bool :=
  match summary v with
  | None => false
  | Some reads =>
      match reads 1%nat, reads 2%nat with
      | Some t1, Some t2 =>
          let txt1 := PyStr.strip t1 in
          let txt2 := PyStr.strip t2 in
          if decide (txt1 <> txt2) then false
          else PyStr.contains NO_RECORDS_MARKER txt2
      | _, _ => false
      end
  end.

End Tester.

(** ** [2a.rerun_failed_observations.py]: retry of the page-level failures *)

Module RerunPage.

Definition GOTO_ATTEMPTS : nat := 3.
Definition BACKOFF_BASE_S : Z := 6.

(** The [for attempt in range(1, GOTO_ATTEMPTS + 1)] loop of [safe_goto],
    over the attempts still to make. Falling out of the loop reaches
    [raise last_err]. *)
Fixpoint safe_goto_loop (goto : nat -> option string) (attempts : list nat)
    (last_err : string) : navigation :=
  match attempts with
  | [] => {| attempts_made := 0; sleeps := []; raised := Some last_err |}
  | attempt :: rest =>
      match goto attempt with
      | None => {| attempts_made := 1; sleeps := []; raised := None |}
      | Some e =>
          if decide (attempt = GOTO_ATTEMPTS)
          then {| attempts_made := 1; sleeps := []; raised := Some e |}
          else
            let later := safe_goto_loop goto rest e in
            {| attempts_made := S (attempts_made later);
               sleeps := BACKOFF_BASE_S * Z.of_nat attempt :: sleeps later;
               raised := raised later |}
      end
  end.

Definition safe_goto (v : visit) : navigation :=
  safe_goto_loop (goto v) (seq 1 GOTO_ATTEMPTS) "None".

Definition page_has_no_records (v : visit) : bool :=
  Scrape.page_has_no_records v.

(** The icon loop: a position whose output file is already there is
    counted as [EXISTS] without a click. *)
Fixpoint resolve_icons (on_disk : nat -> bool) (icons : list resolution)
    (urls : list string) : list string :=
  match icons with
  | [] => urls
  | icon :: rest =>
      let obs_idx := (length urls + 1)%nat in
      if on_disk obs_idx then resolve_icons on_disk rest (urls ++ [EXISTS])
      else match icon with
           | Resolved doc_url => resolve_icons on_disk rest (urls ++ [doc_url])
           | Unresolved => resolve_icons on_disk rest (urls ++ [DOWNLOAD_FAILED])
           end
  end.

Fixpoint crawl (on_disk : nat -> bool) (l : listing) (urls : list string)
    : outcome (list string) :=
  match l with
  | LastPage icons => Returned (resolve_icons on_disk icons urls)
  | NextPage icons rest => crawl on_disk rest (resolve_icons on_disk icons urls)
  | NextRaises icons exn => Raised exn
  end.

Definition extract_all_pages_observations (v : visit) : outcome (list string) :=
  crawl (obs_file_exists v) (pages v) [].

(** The body of the main loop, from [record = {...}] to [append_record]. *)
Definition harvest (it : item) (v : visit) : Row :=
  let record := blank_record it in
  match raised (safe_goto v) with
  | Some e => set_error record e
  | None =>
      if page_has_no_records v then set_no_record_found record
      else match extract_all_pages_observations v with
           | Returned urls => set_observations record urls
           | Raised e => set_error record e
           end
  end.

(** [df["error"].str.contains("Page.goto")]: the pattern is a regular
    expression, its dot matches any character but a line feed. *)
Fixpoint matches_page_goto (s : string) : bool :=
  match s with
  | EmptyString => false
  | String c s' =>
      (String.prefix "Page" s &&
       match String.substring 4 1 s with
       | String d EmptyString =>
           negb (Ascii.eqb d "010"%char) && String.prefix "goto" (String.substring 5 (String.length s) s)
       | _ => false
       end)
      || matches_page_goto s'
  end.

Definition item_of (r : Row) : item :=
  {| item_worker_id := worker_id r;
     item_row_index := row_index r;
     item_application_number := PyStr.strip (PyStr.str_of_cell (application_number r)) |}.

(** One iteration of the main loop on the pair of the [done] set and the
    output file. *)
Definition step (portal : Z -> visit) (st : gset Z * ledger_file) (r : Row)
    : gset Z * ledger_file :=
  if decide (row_index r ∈ st.1) then st
  else ({[row_index r]} ∪ st.1,
        append_record st.2 (harvest (item_of r) (portal (row_index r)))).

(** [main]: [worklist] is [rerun_page_failures.csv], [None] when missing. *)
Definition main (worklist : ledger_file) (portal : Z -> visit)
    (out : ledger_file) : ledger_file :=
  match worklist with
  | None => out
  | Some rows =>
      let df := filter (fun r => matches_page_goto (PyStr.str_of_cell (error r)) = true) rows in
      match df with
      | [] => out
      | _ => (foldl (step portal) (load_done out, out) df).2
      end
  end.

End RerunPage.

(** ** [1.collect_failures.py]: the failure classifier *)

Module Classifier.

(** A row of [rerun_download_failures.csv]. *)
Record DownloadFailure := mkDownloadFailure {
  df_row_index : Z;
  df_worker_id : Z;
  df_application_number : string;
  df_failed_positions : string;
  df_observation_urls : string
}.

(** [str(i)] for a position. *)
Definition str_of_nat (i : nat) : string :=
  NilZero.string_of_uint (Nat.to_uint i).

(** [[i for i, p in enumerate(parts) if p == "DOWNLOAD_FAILED"]], with the
    index of the head of [parts]. *)
Fixpoint failed_from (i : nat) (parts : list string) : list nat :=
  match parts with
  | [] => []
  | p :: ps =>
      if decide (p = DOWNLOAD_FAILED) then i :: failed_from (S i) ps
      else failed_from (S i) ps
  end.

Definition error_text (r : Row) : string :=
  PyStr.strip (PyStr.str_of_cell (error r)).

Definition urls_text (r : Row) : string :=
  PyStr.strip (PyStr.str_of_cell (observation_urls r)).

(** [urls.split(";")]: the position list of a row, as the classifier
    reads it. *)
Definition parts_of (r : Row) : list string :=
  PyStr.split ";" (urls_text r).

Definition is_page_failure (r : Row) : bool :=
  PyStr.truthy (error_text r) && PyStr.contains "Page.goto" (error_text r).

Definition is_download_failure (r : Row) : bool :=
  negb (is_page_failure r) && PyStr.contains DOWNLOAD_FAILED (urls_text r).

Definition download_failure_of (r : Row) : DownloadFailure :=
  {| df_row_index := row_index r;
     df_worker_id := worker_id r;
     df_application_number := application_number r;
     df_failed_positions :=
       PyStr.join "," (str_of_nat <$> failed_from 0 (parts_of r));
     df_observation_urls := urls_text r |}.

(** The body of [for _, row in df.iterrows()], on the two lists. *)
Definition step (acc : list Row * list DownloadFailure) (r : Row)
    : list Row * list DownloadFailure :=
  if is_page_failure r then (acc.1 ++ [r], acc.2)
  else if PyStr.contains DOWNLOAD_FAILED (urls_text r)
       then (acc.1, acc.2 ++ [download_failure_of r])
       else acc.

(** The loop over the worker files; a missing file is skipped. *)
Definition collect (worker_files : list ledger_file)
    : list Row * list DownloadFailure :=
  foldl (fun acc f =>
           match f with
           | None => acc
           | Some rows => foldl step acc rows
           end)
        ([], []) worker_files.

End Classifier.

(** ** [2b.rerun_download_failures.py]: retry of the failed positions *)

Module RerunDownload.

Import Classifier.

Definition digit_of (c : ascii) : option Z :=
  let n := nat_of_ascii c in
  if ((48 <=? n) && (n <=? 57))%nat then Some (Z.of_nat n - 48) else None.

Fixpoint digits (s : string) (acc : Z) : option Z :=
  match s with
  | EmptyString => Some acc
  | String c s' =>
      match digit_of c with
      | Some d => digits s' (10 * acc + d)
      | None => None
      end
  end.

(** [int(part)] on decimal text with an optional sign, the spelling the
    classifier writes; [None] when [int] raises. *)
Definition py_int (part : string) : option Z :=
  match PyStr.strip part with
  | EmptyString => None
  | String "-" EmptyString => None
  | String "+" EmptyString => None
  | String "-" t => Z.opp <$> digits t 0
  | String "+" t => digits t 0
  | t => digits t 0
  end.

Definition parse_failed_positions (cell : string) : gset Z :=
  let s := PyStr.strip (PyStr.str_of_cell cell) in
  if PyStr.truthy s then
    foldl (fun out part =>
             let part := PyStr.strip part in
             if decide (part = EmptyString) then out
             else match py_int part with
                  | Some i => {[i]} ∪ out
                  | None => out
                  end)
          ∅ (PyStr.split "," s)
  else ∅.

(** The icon loop of one page of [crawl_and_redownload_failed_positions].
    [inl urls]: the function returned from inside the loop because the
    known positions are all visited. [inr (urls, obs_index)]: the icons of
    the page are exhausted. *)
Fixpoint retry_icons (on_disk : nat -> bool) (failed_positions : gset Z)
    (icons : list resolution) (urls : list string) (obs_index : nat)
    : list string + (list string * nat) :=
  match icons with
  | [] => inr (urls, obs_index)
  | icon :: rest =>
      if decide (length urls <= obs_index)%nat then inl urls
      else if decide (Z.of_nat obs_index ∉ failed_positions)
      then retry_icons on_disk failed_positions rest urls (S obs_index)
      else if on_disk (obs_index + 1)%nat
      then retry_icons on_disk failed_positions rest
             (<[obs_index := EXISTS]> urls) (S obs_index)
      else match icon with
           | Resolved doc_url =>
               retry_icons on_disk failed_positions rest
                 (<[obs_index := doc_url]> urls) (S obs_index)
           | Unresolved =>
               retry_icons on_disk failed_positions rest
                 (<[obs_index := DOWNLOAD_FAILED]> urls) (S obs_index)
           end
  end.

(** The [while True] loop over the pages. *)
Fixpoint crawl (on_disk : nat -> bool) (failed_positions : gset Z)
    (l : listing) (urls : list string) (obs_index : nat)
    : outcome (list string) :=
  match l with
  | LastPage icons =>
      match retry_icons on_disk failed_positions icons urls obs_index with
      | inl urls' => Returned urls'
      | inr (urls', _) => Returned urls'
      end
  | NextPage icons rest =>
      match retry_icons on_disk failed_positions icons urls obs_index with
      | inl urls' => Returned urls'
      | inr (urls', obs_index') =>
          crawl on_disk failed_positions rest urls' obs_index'
      end
  | NextRaises icons exn =>
      match retry_icons on_disk failed_positions icons urls obs_index with
      | inl urls' => Returned urls'
      | inr _ => Raised exn
      end
  end.

Definition crawl_and_redownload_failed_positions (v : visit)
    (original_urls : list string) (failed_positions : gset Z)
    : outcome (list string) :=
  crawl (obs_file_exists v) failed_positions (pages v) original_urls 0.

Definition original_urls_str (w : DownloadFailure) : string :=
  PyStr.strip (PyStr.str_of_cell (df_observation_urls w)).

(** [original_urls_str.split(";") if original_urls_str else []]. *)
Definition original_urls (w : DownloadFailure) : list string :=
  positions_of (original_urls_str w).

Definition initial_record (w : DownloadFailure) : Row :=
  {| worker_id := df_worker_id w;
     row_index := df_row_index w;
     application_number :=
       PyStr.strip (PyStr.str_of_cell (df_application_number w));
     no_record_found := 0;
     has_third_party_observation := false;
     n_observation_letters := len (original_urls w);
     observation_urls := original_urls_str w;
     error := EmptyString |}.

(** The body of the main loop, from [record = {...}] to [append_record]. *)
Definition redownload (w : DownloadFailure) (v : visit) : Row :=
  let record := initial_record w in
  let failed_positions := parse_failed_positions (df_failed_positions w) in
  if decide (failed_positions = ∅ \/ len (original_urls w) = 0) then record
  else
    match raised (RerunPage.safe_goto v) with
    | Some e => set_error record e
    | None =>
        if RerunPage.page_has_no_records v then set_no_record_found record
        else match crawl_and_redownload_failed_positions
                     v (original_urls w) failed_positions with
             | Returned updated_urls => set_observations record updated_urls
             | Raised e => set_error record e
             end
    end.

Definition step (portal : Z -> visit) (st : gset Z * ledger_file)
    (w : DownloadFailure) : gset Z * ledger_file :=
  if decide (df_row_index w ∈ st.1) then st
  else ({[df_row_index w]} ∪ st.1,
        append_record st.2 (redownload w (portal (df_row_index w)))).

(** [main]: [worklist] is [rerun_download_failures.csv], [None] when
    missing. *)
Definition main (worklist : option (list DownloadFailure))
    (portal : Z -> visit) (out : ledger_file) : ledger_file :=
  match worklist with
  | None => out
  | Some [] => out
  | Some df => (foldl (step portal) (load_done out, out) df).2
  end.

End RerunDownload.

(** ** [3c.rerun_remaining_download_failures.py]: the sharded round 2 *)

Module Round2.

(** The icons of the page the search lands on; this round does not
    paginate. *)
Definition first_page (l : listing) : list resolution :=
  match l with
  | LastPage icons => icons
  | NextPage icons _ => icons
  | NextRaises icons _ => icons
  end.

(** One iteration of [for i, u in enumerate(urls)]. A click on
    [icons.nth(i)] past the last icon times out; this round follows the
    popup only, an icon is [Resolved] here when that path goes through. *)
Definition retry_step (icons : list resolution) (urls : list string) (i : nat)
    : list string :=
  match urls !! i with
  | None => urls
  | Some u =>
      if decide (u <> DOWNLOAD_FAILED) then urls
      else match icons !! i with
           | Some (Resolved doc_url) => <[i := doc_url]> urls
           | _ => urls
           end
  end.

Definition retry_failed (icons : list resolution) (urls : list string)
    : list string :=
  foldl (retry_step icons) urls (seq 0 (length urls)).

(** How [pd.read_csv] typed the two columns the loop uses as text, for the
    input file at hand: [true] when the column holds text (dtype object),
    [false] when every cell of it parsed as a number or a boolean, or is
    empty. The inference is that of pandas and an input here. *)
Record dtypes := mkDtypes {
  application_number_is_text : bool;
  observation_urls_is_text : bool
}.

(** The loop gets a cell as a [str] when the column holds text and the cell
    is not empty; an empty cell is NaN, a float. *)
Definition is_str (column_is_text : bool) (cell : string) : bool :=
  column_is_text && PyStr.truthy cell.

(** [record["observation_urls"].split(";")] does not raise. *)
Definition readable (ty : dtypes) (record : Row) : bool :=
  is_str (observation_urls_is_text ty) (observation_urls record).

(** The outer [try] of the loop body, on the positions [urls]:
    [build_url(app_no)] calls [app_no.strip()], which raises when the
    application number is not a [str]; this and a navigation that raises
    are caught and leave the positions as they are. *)
Definition attempt (ty : dtypes) (record : Row) (v : visit)
    (urls : list string) : list string :=
  if is_str (application_number_is_text ty) (application_number record) then
    match goto v 1%nat with
    | Some _ => urls
    | None => retry_failed (first_page (pages v)) urls
    end
  else urls.

(** The row appended for a record whose positions can be read: the input
    row, with its [observation_urls] joined again after the retries. *)
Definition written (ty : dtypes) (record : Row) (v : visit) : Row :=
  set_observation_urls record
    (PyStr.join ";" (attempt ty record v (PyStr.split ";" (observation_urls record)))).

(** The body of the main loop. The split of the positions is outside the
    [try]: on a cell that is not a [str] it raises an [AttributeError] that
    nothing catches, [None] here. *)
Definition patch (ty : dtypes) (record : Row) (v : visit) : option Row :=
  if readable ty record then Some (written ty record v) else None.

(** A run of the script: the output file it leaves, and whether the loop
    reached the end of the shard. *)
Record run := mkRun {
  ledger : ledger_file;
  completed : bool
}.

(** The loop over the rows of the shard: a row is appended as soon as it is
    processed, and the rows appended stay in the file when a later row
    stops the script. *)
Fixpoint loop (ty : dtypes) (portal : Z -> visit) (out : ledger_file)
    (rows : list Row) : run :=
  match rows with
  | [] => {| ledger := out; completed := true |}
  | record :: rest =>
      match patch ty record (portal (row_index record)) with
      | None => {| ledger := out; completed := false |}
      | Some r => loop ty portal (append_record out r) rest
      end
  end.

(** [main], for a worker id the script accepts ([3c] asserts
    [0 <= WORKER_ID < N_WORKERS]): every row of the shard is processed and
    appended; the script keeps no set of rows already written. *)
Definition main (ty : dtypes) (input : list Row) (n_workers worker : Z)
    (portal : Z -> visit) (out : ledger_file) : run :=
  loop ty portal out (Partition.df_chunk input n_workers worker).

End Round2.

(** ** [3a.merge_outputs.py]: the merge *)

Module Merge.

(** [drop_duplicates(subset=["row_index"], keep="first")]. *)
Fixpoint drop_duplicates (seen : gset Z) (rows : list Row) : list Row :=
  match rows with
  | [] => []
  | r :: rest =>
      if decide (row_index r ∈ seen) then drop_duplicates seen rest
      else r :: drop_duplicates ({[row_index r]} ∪ seen) rest
  end.

(** [set_index("row_index")]: the frame as a map from the label to the
    row. The order of the rows in the written file is not modelled. *)
Definition set_index (rows : list Row) : gmap Z Row :=
  list_to_map ((fun r => (row_index r, r)) <$> rows).

(** [frame.loc[idx]] as a single row: defined when exactly one row of the
    file carries the label. *)
Definition loc (rows : list Row) (idx : Z) : option Row :=
  match filter (fun r => row_index r = idx) rows with
  | [r] => Some r
  | _ => None
  end.

(** [for idx in page_fix.index: base.loc[idx] = page_fix.loc[idx]]. *)
Fixpoint apply_page_fix (page_fix : list Row) (index : list Z)
    (base : gmap Z Row) : option (gmap Z Row) :=
  match index with
  | [] => Some base
  | idx :: rest =>
      match loc page_fix idx with
      | Some r => apply_page_fix page_fix rest (<[idx := r]> base)
      | None => None
      end
  end.

(** One iteration of the loop over [dl_fix.iterrows()]. *)
Definition patch_urls (base : gmap Z Row) (row : Row) : gmap Z Row :=
  match base !! row_index row with
  | None => base
  | Some target =>
      <[row_index row := set_observation_urls target (observation_urls row)]> base
  end.

(** The base frame: the worker files concatenated, the first row of each
    label kept, indexed by the label. *)
Definition base_frame (workers : list (list Row)) : gmap Z Row :=
  set_index (drop_duplicates ∅ (concat workers)).

(** The script: [workers] are the worker files that exist, [page_fix] and
    [dl_fix] are [None] when the file is missing. The result is [None] when
    no worker file exists ([pd.concat] raises on an empty list) and when the
    page-level ledger repeats a label, where [page_fix.loc[idx]] is a frame
    and not a row; that assignment is left out of the model. *)
Definition merge (workers : list (list Row)) (page_fix dl_fix : ledger_file)
    : option (gmap Z Row) :=
  match workers with
  | [] => None
  | _ =>
      match match page_fix with
            | None => Some (base_frame workers)
            | Some rows =>
                apply_page_fix rows (row_index <$> rows) (base_frame workers)
            end with
      | None => None
      | Some base =>
          Some match dl_fix with
               | None => base
               | Some rows => foldl patch_urls base rows
               end
      end
  end.

End Merge.

(** ** [3b.remaining_download_failures.py], [3e.remaining_failures.py]: the
    rows left for the next round *)

Module Remaining.

(** [df[df["observation_urls"].astype(str).str.contains("DOWNLOAD_FAILED",
    na=False)]] on the rows of the merged file. *)
Definition select (merged : list Row) : list Row :=
  filter (fun r => PyStr.contains DOWNLOAD_FAILED
                     (PyStr.str_of_cell (observation_urls r)) = true)
         merged.

End Remaining.

(** ** Vocabulary of the statements *)

Definition rows_of (f : ledger_file) : list Row :=
  match f with
  | None => []
  | Some rows => rows
  end.

(** The labels of a ledger file, in file order. *)
Definition labels (f : ledger_file) : list Z := row_index <$> rows_of f.

(** [resumes items before after]: [after] is [before] followed by rows whose
    labels are exactly the [items] that [before] does not hold, one row
    each. *)
Definition resumes (items : list Z) (before after : ledger_file) : Prop :=
  exists appended,
    rows_of after = rows_of before ++ appended /\
    NoDup (row_index <$> appended) /\
    forall idx, idx ∈ (row_index <$> appended) <->
                idx ∈ items /\ idx ∉ load_done before.

(** [records r urls]: the row [r] stores the position list [urls] and its
    length. *)
Definition records (r : Row) (urls : list string) : Prop :=
  n_observation_letters r = len urls /\
  observation_urls r = PyStr.join ";" urls.

(** [retouched failed icons original updated]: [updated] has the length of
    [original] and differs from it only at positions of [failed], where it
    holds a sentinel or the locator of an icon of [icons]. *)
Definition retouched (failed : gset Z) (icons : list resolution)
    (original updated : list string) : Prop :=
  length updated = length original /\
  forall i x, updated !! i = Some x ->
    original !! i = Some x \/
    (Z.of_nat i ∈ failed /\
     (x = EXISTS \/ x = DOWNLOAD_FAILED \/ Resolved x ∈ icons)).

(** The [observation_urls] of the last row of [rows] labelled [idx]. *)
Fixpoint last_patch (rows : list Row) (idx : Z) : option string :=
  match rows with
  | [] => None
  | r :: rest =>
      match last_patch rest idx with
      | Some u => Some u
      | None => if decide (row_index r = idx) then Some (observation_urls r) else None
      end
  end.

(** The list left by the icon loop of one page of the targeted retry. *)
Definition page_result (res : list string + (list string * nat)) : list string :=
  match res with
  | inl urls => urls
  | inr (urls, _) => urls
  end.

(** [untouched urls u]: [u] has the length of [urls] and agrees with it
    wherever [urls] does not hold [DOWNLOAD_FAILED]. *)
Definition untouched (urls u : list string) : Prop :=
  length u = length urls /\
  forall j, urls !! j <> Some DOWNLOAD_FAILED -> u !! j = urls !! j.

(** Every character of [s] passes the test [P]. *)
Fixpoint all_chars (P : ascii -> bool) (s : string) : bool :=
  match s with
  | EmptyString => true
  | String c s' => P c && all_chars P s'
  end.

Definition is_digit (c : ascii) : bool :=
  match RerunDownload.digit_of c with
  | Some _ => true
  | None => false
  end.

(** Two rows agree on every column but [observation_urls]. *)
Definition same_but_urls (r b : Row) : Prop :=
  worker_id r = worker_id b /\
  row_index r = row_index b /\
  application_number r = application_number b /\
  no_record_found r = no_record_found b /\
  has_third_party_observation r = has_third_party_observation b /\
  n_observation_letters r = n_observation_letters b /\
  error r = error b.

(** The row of the frame after the download-level patches of [rows]: its
    [observation_urls] is that of the last row of [rows] with the label. *)
Definition patched (rows : list Row) (k : Z) (target : Row) : Row :=
  match last_patch rows k with
  | Some u => set_observation_urls target u
  | None => target
  end.

(** ** [build_search_url]: the search request of an item *)

Module Url.

Definition BASE_URL : string :=
  "https://webapps.dublincity.ie/PublicAccess_Live/SearchResult/RunThirdPartySearch".

(** The characters [urllib.parse.quote_plus] leaves as they are: letters,
    digits and [_.-~]. *)
Definition always_safe (c : ascii) : bool :=
  let n := nat_of_ascii c in
  ((65 <=? n) && (n <=? 90) || (97 <=? n) && (n <=? 122) ||
   (48 <=? n) && (n <=? 57) ||
   (n =? 95) || (n =? 46) || (n =? 45) || (n =? 126))%nat.

(** One digit of [%02X]. *)
Definition hex_digit (n : nat) : ascii :=
  ascii_of_nat (if (n <? 10)%nat then 48 + n else 55 + n)%nat.

(** [quote_plus] on one byte of the text. *)
Definition quote_char (c : ascii) : string :=
  if always_safe c then String c EmptyString
  else if Ascii.eqb c " " then "+"
  else String "%" (String (hex_digit (nat_of_ascii c / 16))
                          (String (hex_digit (nat_of_ascii c mod 16)) EmptyString)).

Fixpoint quote_plus (s : string) : string :=
  match s with
  | EmptyString => EmptyString
  | String c s' => quote_char c +:+ quote_plus s'
  end.

(** [BASE_URL + "?" + urlencode({"FileSystemId": "PL", "Folder1_Ref":
    app_number.strip()})]. *)
Definition build_search_url (app_number : string) : string :=
  BASE_URL +:+ "?" +:+ "FileSystemId=PL&Folder1_Ref=" +:+
  quote_plus (PyStr.strip app_number).

End Url.

(** ** [3d.merge_outputs_again.py]: the merge of the round-2 files *)

Module MergeAgain.

(** The script: [merged] is the file written by the first merge, indexed as
    it is read; every row of every round-2 worker file that exists patches
    the [observation_urls] of its label when the frame holds the label. *)
Definition merge (merged : list Row) (worker_files : list ledger_file)
    : gmap Z Row :=
  foldl (fun df f =>
           match f with
           | None => df
           | Some rows => foldl Merge.patch_urls df rows
           end)
        (Merge.set_index merged) worker_files.

End MergeAgain.

(** ** Vocabulary of the further statements *)

(** What a full crawl writes for an icon. *)
Definition position_of (icon : resolution) : string :=
  match icon with
  | Resolved doc_url => doc_url
  | Unresolved => DOWNLOAD_FAILED
  end.

(** The exception of the first next button that raises, if any. *)
Fixpoint first_raise (l : listing) : option string :=
  match l with
  | LastPage _ => None
  | NextPage _ rest => first_raise rest
  | NextRaises _ exn => Some exn
  end.

(** What the crawl of the page-level retry writes for the icon at position
    [i], counted from 0. *)
Definition position_on_disk (on_disk : nat -> bool) (i : nat)
    (icon : resolution) : string :=
  if on_disk (i + 1)%nat then EXISTS else position_of icon.

(** The list the targeted retry is to return: position [i >= k] of [urls],
    when it is in [failed] and the listing has an icon for it, holds what
    the page-level crawl would write; every other position is kept. *)
Definition retried_from (on_disk : nat -> bool) (failed : gset Z) (k : nat)
    (icons : list resolution) (urls : list string) : list string :=
  imap (fun i x =>
          if decide (i < k)%nat then x
          else match icons !! (i - k)%nat with
               | Some icon =>
                   if decide (Z.of_nat i ∈ failed)
                   then position_on_disk on_disk i icon
                   else x
               | None => x
               end)
       urls.

(** What the sharded round 2 is to return: a position that holds
    [DOWNLOAD_FAILED] takes the locator of its icon when the icon resolves. *)
Definition round2_retried (icons : list resolution) (urls : list string)
    : list string :=
  imap (fun i u =>
          if decide (u = DOWNLOAD_FAILED)
          then match icons !! i with
               | Some (Resolved doc_url) => doc_url
               | _ => u
               end
          else u)
       urls.

(** The value of a hexadecimal digit. *)
Definition hex_value (c : ascii) : option nat :=
  let n := nat_of_ascii c in
  if ((48 <=? n) && (n <=? 57))%nat then Some (n - 48)%nat
  else if ((65 <=? n) && (n <=? 70))%nat then Some (n - 55)%nat
  else if ((97 <=? n) && (n <=? 102))%nat then Some (n - 87)%nat
  else None.

(** [urllib.parse.unquote_plus], the inverse the portal applies to the
    query. *)
Fixpoint unquote_plus (s : string) : string :=
  match s with
  | EmptyString => EmptyString
  | String c s' =>
      if Ascii.eqb c "+" then String " " (unquote_plus s')
      else if Ascii.eqb c "%" then
        match s' with
        | String a (String b rest) =>
            match hex_value a, hex_value b with
            | Some x, Some y =>
                String (ascii_of_nat (16 * x + y)) (unquote_plus rest)
            | _, _ => String c (unquote_plus s')
            end
        | _ => String c (unquote_plus s')
        end
      else String c (unquote_plus s')
  end.

(** The first row of [rows] labelled [idx]. *)
Fixpoint first_row (rows : list Row) (idx : Z) : option Row :=
  match rows with
  | [] => None
  | r :: rest => if decide (row_index r = idx) then Some r else first_row rest idx
  end.

(** A locator that survives the text columns of the ledgers: not empty, not
    the failure sentinel, free of white space and of the separator. *)
Definition clean_locator (u : string) : Prop :=
  u <> EmptyString /\ u <> DOWNLOAD_FAILED /\
  all_chars (fun c => negb (PyStr.is_space c) && negb (Ascii.eqb c ";")) u = true.

(** The file [1.collect_failures.py] leaves for a list of rows: it is
    written only when the list is not empty. *)
Definition written_if_any (rows : list Row) : ledger_file :=
  match rows with
  | [] => None
  | _ => Some rows
  end.

(** ** Sample inputs *)

Definition goto_timeout : string :=
  "TimeoutError('Page.goto: Timeout 45000ms exceeded.')".

Definition sample_item : item := mkItem 0 7 "1710".

(** Every navigation times out. *)
Definition unreachable_visit : visit :=
  mkVisit (fun _ => Some goto_timeout) None (LastPage []) (fun _ => false).

(** The first navigation times out, the second one gets through. *)
Definition flaky_visit : visit :=
  mkVisit (fun k => if decide (k = 1%nat) then Some goto_timeout else None)
          None (LastPage [Resolved "https://portal/doc/1"]) (fun _ => false).

(** The summary region shows the empty-table text on the first read and the
    count of the loaded table on the next one. *)
Definition racing_visit : visit :=
  mkVisit (fun _ => None)
          (Some (fun k => if decide (k = 1%nat)
                          then Some "Showing 0 to 0 of 0 entries"
                          else Some "Showing 1 to 2 of 2 entries"))
          (LastPage [Resolved "https://portal/doc/1"; Resolved "https://portal/doc/2"])
          (fun _ => false).

(** Item D of the scenario: three icons over two pages, the second one
    cannot be resolved. *)
Definition visit_D : visit :=
  mkVisit (fun _ => None)
          (Some (fun _ => Some "Showing 1 to 3 of 3 entries"))
          (NextPage [Resolved "https://portal/doc/1"; Unresolved]
                    (LastPage [Resolved "https://portal/doc/3"]))
          (fun _ => false).

(** The same listing on the retry, every icon resolves. *)
Definition visit_D_retry : visit :=
  mkVisit (fun _ => None)
          (Some (fun _ => Some "Showing 1 to 3 of 3 entries"))
          (NextPage [Resolved "https://portal/doc/1"; Resolved "https://portal/doc/2"]
                    (LastPage [Resolved "https://portal/doc/3"]))
          (fun _ => false).

Definition worklist_D : Classifier.DownloadFailure :=
  Classifier.mkDownloadFailure 7 0 "1710" "1"
    "https://portal/doc/1;DOWNLOAD_FAILED;https://portal/doc/3".

Definition row_D : Row :=
  {| worker_id := 0; row_index := 7; application_number := "1710";
     no_record_found := 0; has_third_party_observation := true;
     n_observation_letters := 3;
     observation_urls := "https://portal/doc/1;DOWNLOAD_FAILED;https://portal/doc/3";
     error := EmptyString |}.

(** An input file of the sharded round 2 whose two columns hold text, and
    one whose application numbers all parsed as numbers. *)
Definition text_columns : Round2.dtypes := Round2.mkDtypes true true.
Definition numeric_application_numbers : Round2.dtypes := Round2.mkDtypes false true.

(** A row whose crawl stopped on the next button. *)
Definition click_timeout_row : Row :=
  {| worker_id := 0; row_index := 7; application_number := "1710";
     no_record_found := 0; has_third_party_observation := false;
     n_observation_letters := 0; observation_urls := EmptyString;
     error := "TimeoutError('Locator.click: Timeout 30000ms exceeded.')" |}.

(** Row 5 as the harvest wrote it, as the page-level retry wrote it and as
    a download-level retry wrote it. *)
Definition R0 : Row :=
  {| worker_id := 0; row_index := 5; application_number := "2345/21";
     no_record_found := 0; has_third_party_observation := false;
     n_observation_letters := 0; observation_urls := EmptyString;
     error := goto_timeout |}.

Definition R1 : Row :=
  {| worker_id := 0; row_index := 5; application_number := "2345/21";
     no_record_found := 0; has_third_party_observation := true;
     n_observation_letters := 1;
     observation_urls := "https://portal/doc/1";
     error := EmptyString |}.

Definition R2 : Row :=
  {| worker_id := 0; row_index := 5; application_number := "2345/21";
     no_record_found := 0; has_third_party_observation := true;
     n_observation_letters := 2;
     observation_urls := "https://portal/doc/8;EXISTS";
     error := EmptyString |}.

(** A base row with three positions and a patch row with two. *)
Definition B5 : Row :=
  {| worker_id := 3; row_index := 5; application_number := "2345/21";
     no_record_found := 0; has_third_party_observation := true;
     n_observation_letters := 3;
     observation_urls := "https://portal/doc/1;DOWNLOAD_FAILED;https://portal/doc/3";
     error := EmptyString |}.

Definition P5 : Row :=
  {| worker_id := 3; row_index := 5; application_number := "2345/21";
     no_record_found := 0; has_third_party_observation := true;
     n_observation_letters := 2;
     observation_urls := "https://portal/doc/1;https://portal/doc/2";
     error := EmptyString |}.

(** The ledger file of worker 0 of 1 of the sharded round 2 after a first
    run over the single row [B5]. *)
Definition round2_first_run : ledger_file :=
  Round2.ledger (Round2.main text_columns [B5] 1 0 (fun _ => visit_D) None).

(** Row 5 as a download-level retry wrote it with one position still
    failed, as the merge leaves it when the page-level retry ledger holds
    [R1] and the download-level one this row, and as the sharded round 2
    writes it when the icon of the failed position resolves. *)
Definition R2f : Row :=
  {| worker_id := 0; row_index := 5; application_number := "2345/21";
     no_record_found := 0; has_third_party_observation := true;
     n_observation_letters := 2;
     observation_urls := "https://portal/doc/8;DOWNLOAD_FAILED";
     error := EmptyString |}.

Definition M5 : Row :=
  {| worker_id := 0; row_index := 5; application_number := "2345/21";
     no_record_found := 0; has_third_party_observation := true;
     n_observation_letters := 1;
     observation_urls := "https://portal/doc/8;DOWNLOAD_FAILED";
     error := EmptyString |}.

Definition M5_round2 : Row :=
  {| worker_id := 0; row_index := 5; application_number := "2345/21";
     no_record_found := 0; has_third_party_observation := true;
     n_observation_letters := 1;
     observation_urls := "https://portal/doc/8;https://portal/doc/2";
     error := EmptyString |}.

(** A row of a round-2 input file whose [observation_urls] cell is empty. *)
Definition E9 : Row :=
  {| worker_id := 1; row_index := 9; application_number := "3001/22";
     no_record_found := 0; has_third_party_observation := false;
     n_observation_letters := 0; observation_urls := EmptyString;
     error := EmptyString |}.

(** A first page with two icons whose next button raises. *)
Definition crowded_visit : visit :=
  mkVisit (fun _ => None) None
    (NextRaises [Resolved "https://portal/doc/1"; Resolved "https://portal/doc/2"]
                "TimeoutError('Locator.click: Timeout 30000ms exceeded.')")
    (fun _ => false).

(** A search with no result: the summary region shows the empty-table text
    on every read. *)
Definition empty_visit : visit :=
  mkVisit (fun _ => None)
          (Some (fun _ => Some "Showing 0 to 0 of 0 entries"))
          (LastPage []) (fun _ => false).

(** An input CSV of three applications, the second one of another
    authority. *)
Definition sample_csv : list Scrape.application :=
  [Scrape.mkApplication "Dublin City Council" "1710";
   Scrape.mkApplication "Cork County Council" "22/4561";
   Scrape.mkApplication "Dublin City Council" "WEB1432/24"].

(* ================================================================== *)
(** * Properties *)

(** ** Strings *)

Section StringFacts.
Import PyStr.

Lemma prefix_refl s : String.prefix s s = true.
Proof. induction s as [|c s IH]; simpl; [done|]. destruct (ascii_dec c c); [done|congruence]. Qed.

Lemma contains_prefix p s : String.prefix p s = true -> contains p s = true.
Proof. intros H. destruct s; cbn [contains]; rewrite H; done. Qed.

Lemma contains_tail p c s : contains p s = true -> contains p (String c s) = true.
Proof. intros H. cbn [contains]. rewrite H. destruct (String.prefix p (String c s)); done. Qed.

Lemma split_nonempty sep s : split sep s <> [].
Proof.
  destruct s as [|c s]; simpl; [done|].
  destruct (Ascii.eqb c sep); [done|]. destruct (split sep s); done.
Qed.

Lemma split_head_prefix sep s p ps :
  split sep s = p :: ps -> String.prefix p s = true.
Proof.
  revert p ps. induction s as [|c s IH]; intros p ps; simpl.
  - intros [= <- <-]. done.
  - destruct (Ascii.eqb c sep).
    + intros [= <- <-]. done.
    + destruct (split sep s) as [|q qs] eqn:E.
      * by destruct (split_nonempty sep s).
      * intros [= <- <-]. simpl. destruct (ascii_dec c c); [|congruence]. by eapply IH.
Qed.

Lemma split_part_contained sep s p :
  p ∈ split sep s -> contains p s = true.
Proof.
  revert p. induction s as [|c s IH]; intros p; simpl split.
  - intros ->%list_elem_of_singleton. done.
  - destruct (Ascii.eqb c sep).
    + intros [->|Hin]%elem_of_cons; [done|]. apply contains_tail, IH, Hin.
    + destruct (split sep s) as [|q qs] eqn:E.
      * by destruct (split_nonempty sep s).
      * intros [->|Hin]%elem_of_cons.
        -- apply contains_prefix. simpl. destruct (ascii_dec c c); [|congruence].
           eapply split_head_prefix, E.
        -- apply contains_tail, IH. by right.
Qed.

Lemma join_split sep s : join (String sep EmptyString) (split sep s) = s.
Proof.
  induction s as [|c s IH]; simpl; [done|].
  destruct (Ascii.eqb_spec c sep) as [->|Hne].
  - unfold join in *. simpl. pose proof (split_nonempty sep s).
    destruct (split sep s) eqn:E; [done|]. simpl in *. by rewrite IH.
  - unfold join in *. pose proof (split_nonempty sep s).
    destruct (split sep s) as [|q qs] eqn:E; [done|].
    simpl in *. destruct qs; simpl in *; by rewrite <- IH.
Qed.

End StringFacts.

Section LedgerText.
Import PyStr.

Lemma contains_char c d s :
  contains (String c EmptyString) (String d s) = false ->
  d <> c /\ contains (String c EmptyString) s = false.
Proof.
  cbn [contains]. cbn [String.prefix].
  destruct (ascii_dec c d) as [->|Hne].
  - by destruct s.
  - intros H. split; [congruence | done].
Qed.

Lemma append_nil_l s : EmptyString +:+ s = s.
Proof. reflexivity. Qed.

Lemma append_cons c s t : String c s +:+ t = String c (s +:+ t).
Proof. reflexivity. Qed.

Lemma split_clean_app c p s :
  contains (String c EmptyString) p = false ->
  split c (p +:+ String c s) = p :: split c s.
Proof.
  induction p as [|d p IH]; intros Hp.
  - rewrite append_nil_l. cbn [split]. by rewrite Ascii.eqb_refl.
  - apply contains_char in Hp as [Hd Hp]. rewrite append_cons. cbn [split].
    rewrite (proj2 (Ascii.eqb_neq d c)) by done.
    by rewrite IH.
Qed.

Lemma split_clean c p :
  contains (String c EmptyString) p = false -> split c p = [p].
Proof.
  induction p as [|d p IH]; intros Hp; [done|].
  apply contains_char in Hp as [Hd Hp]. cbn [split].
  rewrite (proj2 (Ascii.eqb_neq d c)) by done. by rewrite IH.
Qed.

Lemma split_join c parts :
  parts <> [] ->
  Forall (fun p => contains (String c EmptyString) p = false) parts ->
  split c (join (String c EmptyString) parts) = parts.
Proof.
  intros Hne Hclean. induction Hclean as [|p parts Hp Hps IH]; [done|].
  destruct parts as [|q parts].
  - by apply split_clean.
  - assert (E : join (String c EmptyString) (p :: q :: parts)
               = p +:+ String c (join (String c EmptyString) (q :: parts)))
      by reflexivity.
    rewrite E, split_clean_app by done. by rewrite IH.
Qed.

Lemma join_nonempty sep p parts :
  p <> EmptyString -> join sep (p :: parts) <> EmptyString.
Proof.
  intros Hp. unfold join. cbn [String.concat]. destruct parts; [done|]. by destruct p.
Qed.

(** Reading back the positions of a row, as the retry does, gives the list
    that was joined when no position is empty or holds a semicolon. *)
Lemma positions_read_back urls :
  Forall (fun u => u <> EmptyString /\ contains ";" u = false) urls ->
  positions_of (join ";" urls) = urls.
Proof.
  intros Hclean. unfold positions_of. destruct urls as [|u urls]; [done|].
  apply Forall_cons in Hclean as Hu. destruct Hu as [[Hu _] _].
  pose proof (join_nonempty ";" u urls Hu) as Hne.
  assert (Ht : truthy (join ";" (u :: urls)) = true)
    by (destruct (join ";" (u :: urls)); done).
  rewrite Ht. apply split_join; [done|].
  eapply Forall_impl; [exact Hclean|]. by intros ? [_ ?].
Qed.

End LedgerText.

(** ** Shards *)

Section PartitionFacts.
Import Partition.

Lemma chunk_bounds total n :
  0 <= total -> 0 < n ->
  0 <= chunk total n /\ n * chunk total n <= total.
Proof.
  intros Ht Hn. unfold chunk. split.
  - apply Z.div_pos; lia.
  - apply Z.mul_div_le; lia.
Qed.

Lemma shard_in_range total n w :
  0 <= total -> 0 <= w < n ->
  0 <= start total n w <= stop total n w /\ stop total n w <= total.
Proof.
  intros Ht Hw.
  destruct (chunk_bounds total n) as [Hc Hm]; [lia..|].
  unfold start, stop. case_decide; subst; nia.
Qed.

Lemma shards_ordered total n w1 w2 :
  0 <= total -> 0 <= w1 -> w1 < w2 -> w2 < n ->
  stop total n w1 <= start total n w2.
Proof.
  intros Ht H1 H12 H2.
  destruct (chunk_bounds total n) as [Hc Hm]; [lia..|].
  unfold start, stop. case_decide; [lia | nia].
Qed.

Lemma shard_cover total n i :
  0 < n -> 0 <= i < total ->
  exists w, 0 <= w < n /\ start total n w <= i < stop total n w.
Proof.
  intros Hn Hi.
  destruct (chunk_bounds total n) as [Hc Hm]; [lia..|].
  destruct (decide ((n - 1) * chunk total n <= i)) as [Hlast | Hearly].
  - exists (n - 1). unfold start, stop.
    rewrite decide_True by reflexivity. lia.
  - assert (0 < chunk total n) by nia.
    exists (i / chunk total n).
    assert (Hq : chunk total n * (i / chunk total n) <= i
                 < chunk total n * (i / chunk total n) + chunk total n).
    { pose proof (Z.mul_div_le i (chunk total n)).
      pose proof (Z.mul_succ_div_gt i (chunk total n)). lia. }
    assert (0 <= i / chunk total n) by (apply Z.div_pos; lia).
    assert (i / chunk total n < n - 1) by nia.
    unfold start, stop. rewrite decide_False by lia. nia.
Qed.

End PartitionFacts.

Section ShardLists.
Import Partition.
Context {A : Type}.

Lemma iloc_in_range (a b : Z) (df : list A) :
  0 <= a <= b -> b <= Z.of_nat (length df) ->
  iloc a b df = take (Z.to_nat (b - a)) (drop (Z.to_nat a) df).
Proof.
  intros Hab Hb. unfold iloc, clamp.
  rewrite !decide_False by lia. by rewrite !Z.min_l by lia.
Qed.

Lemma iloc_lookup (a b : Z) (df : list A) (k : nat) :
  0 <= a <= b -> b <= Z.of_nat (length df) ->
  iloc a b df !! k =
  if decide (Z.of_nat k < b - a) then df !! (Z.to_nat a + k)%nat else None.
Proof.
  intros Hab Hb. rewrite iloc_in_range by done. case_decide.
  - rewrite lookup_take_lt by lia. apply lookup_drop.
  - apply lookup_take_ge. lia.
Qed.

Lemma early_shards_concat (df : list A) (n : Z) (j : nat) :
  0 < n -> Z.of_nat j <= n - 1 ->
  concat ((fun w => df_chunk df n w) <$> seqZ 0 (Z.of_nat j)) =
  take (Z.to_nat (Z.of_nat j * chunk (Z.of_nat (length df)) n)) df.
Proof.
  intros Hn. set (T := Z.of_nat (length df)).
  destruct (chunk_bounds T n) as [Hc Hm]; [lia..|].
  induction j as [|j IH]; intros Hj.
  - done.
  - rewrite Nat2Z.inj_succ, <- Z.add_1_r. rewrite seqZ_app by lia.
    rewrite fmap_app, concat_app, IH by lia. simpl.
    change (Z.of_nat 0) with 0. rewrite !Z.add_0_l.
    rewrite app_nil_r. unfold df_chunk. fold T.
    destruct (shard_in_range T n (Z.of_nat j)) as [Hr1 Hr2]; [lia..|].
    rewrite iloc_in_range by (fold T; lia).
    unfold start, stop in *. rewrite decide_False in * by lia.
    rewrite take_take_drop. f_equal. nia.
Qed.

Lemma shards_concat (df : list A) (n : Z) :
  0 < n -> concat ((fun w => df_chunk df n w) <$> seqZ 0 n) = df.
Proof.
  intros Hn. set (T := Z.of_nat (length df)).
  destruct (chunk_bounds T n) as [Hc Hm]; [lia..|].
  assert (Hseq : seqZ 0 n = seqZ 0 (Z.of_nat (Z.to_nat (n - 1))) ++ [n - 1]).
  { transitivity (seqZ 0 ((n - 1) + 1)); [f_equal; lia|].
    rewrite seqZ_app, Z2Nat.id by lia. f_equal. }
  rewrite Hseq, fmap_app, concat_app, early_shards_concat by lia. simpl.
  rewrite app_nil_r, Z2Nat.id by lia. unfold df_chunk. fold T.
  destruct (shard_in_range T n (n - 1)) as [Hr1 Hr2]; [lia..|].
  rewrite iloc_in_range by (fold T; lia).
  unfold start, stop in *. rewrite decide_True in * by lia.
  rewrite (take_ge (drop _ df)) by (rewrite length_drop; unfold T; lia).
  apply take_drop.
Qed.

End ShardLists.

(** ** Crawls *)

Section CrawlFacts.

Lemma scrape_icons_length icons : forall urls,
  length (Scrape.resolve_icons icons urls) = (length urls + length icons)%nat.
Proof.
  induction icons as [|[u|] icons IH]; intros urls; simpl.
  - lia.
  - rewrite IH, length_app. simpl. lia.
  - rewrite IH, length_app. simpl. lia.
Qed.

Lemma scrape_crawl_length l : forall urls urls',
  Scrape.crawl l urls = Returned urls' ->
  length urls' = (length urls + icon_count l)%nat.
Proof.
  induction l as [icons|icons rest IH|icons e]; intros urls urls'; simpl.
  - intros [= <-]. apply scrape_icons_length.
  - intros H%IH. rewrite H, scrape_icons_length. lia.
  - done.
Qed.

Lemma scrape_crawl_returns l : forall urls,
  next_never_raises l = true -> exists urls', Scrape.crawl l urls = Returned urls'.
Proof.
  induction l as [icons|icons rest IH|icons e]; intros urls; simpl; eauto. done.
Qed.

Lemma rerun_icons_length on_disk icons : forall urls,
  length (RerunPage.resolve_icons on_disk icons urls) =
  (length urls + length icons)%nat.
Proof.
  induction icons as [|icon icons IH]; intros urls; simpl.
  - lia.
  - destruct (on_disk _); [|destruct icon];
      rewrite IH, length_app; simpl; lia.
Qed.

Lemma rerun_crawl_length on_disk l : forall urls urls',
  RerunPage.crawl on_disk l urls = Returned urls' ->
  length urls' = (length urls + icon_count l)%nat.
Proof.
  induction l as [icons|icons rest IH|icons e]; intros urls urls'; simpl.
  - intros [= <-]. apply rerun_icons_length.
  - intros H%IH. rewrite H, rerun_icons_length. lia.
  - done.
Qed.

(** [retouched] is a preorder that grows with the icons. *)
Lemma retouched_refl failed icons urls : retouched failed icons urls urls.
Proof. split; [done | by left]. Qed.

Lemma retouched_weaken failed icons icons' a b :
  icons ⊆ icons' -> retouched failed icons a b -> retouched failed icons' a b.
Proof.
  intros Hsub [Hlen H]. split; [done|].
  intros i x Hx. destruct (H i x Hx) as [?|(? & [?|[?|?]])]; auto 6.
Qed.

Lemma retouched_trans failed icons a b c :
  retouched failed icons a b -> retouched failed icons b c ->
  retouched failed icons a c.
Proof.
  intros [Hab H1] [Hbc H2]. split; [congruence|].
  intros i x Hx. destruct (H2 i x Hx) as [Hb|?]; [|by right]. by apply H1.
Qed.

Lemma retouched_insert failed icons urls i x :
  Z.of_nat i ∈ failed ->
  x = EXISTS \/ x = DOWNLOAD_FAILED \/ Resolved x ∈ icons ->
  retouched failed icons urls (<[i := x]> urls).
Proof.
  intros Hi Hx. split; [apply length_insert|].
  intros j y Hj. destruct (decide (i = j)) as [<-|Hne].
  - right. destruct (decide (i < length urls)%nat).
    + rewrite list_lookup_insert_eq in Hj by done. by injection Hj as <-.
    + rewrite list_insert_ge in Hj by lia. apply lookup_lt_Some in Hj. lia.
  - left. by rewrite list_lookup_insert_ne in Hj.
Qed.

Lemma retouched_frame failed icons original updated i :
  retouched failed icons original updated ->
  Z.of_nat i ∉ failed -> updated !! i = original !! i.
Proof.
  intros [Hlen H] Hi. destruct (updated !! i) as [x|] eqn:Hx.
  - destruct (H i x Hx) as [?|[? _]]; done.
  - symmetry. apply lookup_ge_None. apply lookup_ge_None in Hx. lia.
Qed.

Lemma retry_icons_retouched on_disk failed icons : forall urls k,
  retouched failed icons urls
    (page_result (RerunDownload.retry_icons on_disk failed icons urls k)).
Proof.
  induction icons as [|icon icons IH]; intros urls k; simpl.
  - apply retouched_refl.
  - assert (Hw : forall a b, retouched failed icons a b ->
                             retouched failed (icon :: icons) a b).
    { intros a b. apply retouched_weaken. set_solver. }
    case_decide; [apply retouched_refl|].
    case_decide as Hk; [apply Hw, IH|].
    assert (Hin : Z.of_nat k ∈ failed) by (destruct (decide (Z.of_nat k ∈ failed)); done).
    destruct (on_disk _).
    { eapply retouched_trans; [|apply Hw, IH]. apply retouched_insert; auto. }
    destruct icon as [u|].
    + eapply retouched_trans; [|apply Hw, IH].
      apply retouched_insert; [done|]. right; right. set_solver.
    + eapply retouched_trans; [|apply Hw, IH]. apply retouched_insert; auto.
Qed.

Lemma crawl_retouched on_disk failed l : forall urls k,
  match RerunDownload.crawl on_disk failed l urls k with
  | Returned updated => retouched failed (listing_icons l) urls updated
  | Raised _ => next_never_raises l = false
  end.
Proof.
  induction l as [icons|icons rest IH|icons e]; intros urls k; simpl.
  - pose proof (retry_icons_retouched on_disk failed icons urls k) as H.
    destruct (RerunDownload.retry_icons _ _ _ _ _) as [u|[u k']]; exact H.
  - pose proof (retry_icons_retouched on_disk failed icons urls k) as H.
    destruct (RerunDownload.retry_icons _ _ _ _ _) as [u|[u k']]; simpl in H.
    + eapply retouched_weaken; [|exact H]. set_solver.
    + specialize (IH u k').
      destruct (RerunDownload.crawl on_disk failed rest u k'); [|done].
      eapply retouched_trans.
      * eapply retouched_weaken; [|exact H]. set_solver.
      * eapply retouched_weaken; [|exact IH]. set_solver.
  - pose proof (retry_icons_retouched on_disk failed icons urls k) as H.
    destruct (RerunDownload.retry_icons _ _ _ _ _) as [u|[u k']]; [exact H|done].
Qed.

End CrawlFacts.

Section Round2Facts.

Lemma retry_step_untouched icons urls u i :
  untouched urls u -> untouched urls (Round2.retry_step icons u i).
Proof.
  intros [Hlen Hsame]. unfold Round2.retry_step.
  destruct (u !! i) as [x|] eqn:Hx; [|done].
  case_decide as Hne; [done|].
  assert (x = DOWNLOAD_FAILED) as -> by (destruct (decide (x = DOWNLOAD_FAILED)); done).
  destruct (icons !! i) as [[d|]|]; try done.
  split; [by rewrite length_insert|].
  intros j Hj. destruct (decide (i = j)) as [<-|Hij].
  - rewrite <- (Hsame i Hj) in Hj. congruence.
  - rewrite list_lookup_insert_ne by done. by apply Hsame.
Qed.

Lemma retry_fold_untouched icons urls idxs : forall u,
  untouched urls u -> untouched urls (foldl (Round2.retry_step icons) u idxs).
Proof.
  induction idxs as [|i idxs IH]; intros u Hu; simpl; [done|].
  by apply IH, retry_step_untouched.
Qed.

Lemma retry_failed_untouched icons urls :
  untouched urls (Round2.retry_failed icons urls).
Proof. apply retry_fold_untouched. by split. Qed.

End Round2Facts.

Section RowFacts.

Lemma records_set_observations r urls : records (set_observations r urls) urls.
Proof. by split. Qed.

End RowFacts.

(** ** Ledgers and resumable loops *)

Section LedgerFacts.

Lemma rows_of_append f r : rows_of (append_record f r) = rows_of f ++ [r].
Proof. by destruct f. Qed.

Lemma load_done_labels f idx : idx ∈ load_done f <-> idx ∈ labels f.
Proof.
  unfold labels. destruct f as [rows|]; simpl.
  - apply elem_of_list_to_set.
  - split; [by intros ?%elem_of_empty | by intros ?%elem_of_nil].
Qed.

Lemma scrape_harvest_row_index it v :
  row_index (Scrape.harvest it v) = item_row_index it.
Proof.
  unfold Scrape.harvest. destruct (raised _); [done|].
  destruct (Scrape.page_has_no_records v); [done|].
  by destruct (Scrape.extract_all_pages_observations _).
Qed.

Lemma rerun_page_harvest_row_index it v :
  row_index (RerunPage.harvest it v) = item_row_index it.
Proof.
  unfold RerunPage.harvest. destruct (raised _); [done|].
  destruct (RerunPage.page_has_no_records v); [done|].
  by destruct (RerunPage.extract_all_pages_observations _).
Qed.

Lemma redownload_row_index w v :
  row_index (RerunDownload.redownload w v) = Classifier.df_row_index w.
Proof.
  unfold RerunDownload.redownload. case_decide; [done|].
  destruct (raised _); [done|].
  destruct (RerunPage.page_has_no_records v); [done|].
  by destruct (RerunDownload.crawl_and_redownload_failed_positions _ _ _).
Qed.

End LedgerFacts.

(** The loop of a pass that loads [done] once and does not update it. *)
Section StaticDone.
Context {A : Type} (key : A -> Z) (body : A -> Row) (done : gset Z).
Context (step : ledger_file -> A -> ledger_file).
Hypothesis step_eq : forall out x,
  step out x = if decide (key x ∈ done) then out else append_record out (body x).
Hypothesis body_key : forall x, row_index (body x) = key x.

Lemma static_fold l : forall out,
  rows_of (foldl step out l) =
  rows_of out ++ (body <$> filter (fun x => key x ∉ done) l).
Proof.
  induction l as [|x l IH]; intros out; simpl.
  - by rewrite app_nil_r.
  - rewrite IH, step_eq. case_decide.
    + by rewrite filter_cons_False by (intros ?; done).
    + rewrite filter_cons_True by done. rewrite rows_of_append.
      by rewrite fmap_cons, <- app_assoc.
Qed.

Lemma static_resumes l out :
  NoDup (key <$> l) -> done = load_done out ->
  resumes (key <$> l) out (foldl step out l).
Proof.
  intros Hnd Hdone. exists (body <$> filter (fun x => key x ∉ done) l).
  assert (Hidx : row_index <$> (body <$> filter (fun x => key x ∉ done) l)
                 = filter (fun k => k ∉ done) (key <$> l)).
  { clear Hnd. induction l as [|x l IH]; [done|]. rewrite (fmap_cons key).
    destruct (decide (key x ∈ done)).
    - rewrite filter_cons_False by (intros ?; done).
      rewrite (filter_cons_False (fun k => k ∉ done)) by (intros ?; done). done.
    - rewrite filter_cons_True by done.
      rewrite (filter_cons_True (fun k => k ∉ done)) by done.
      by rewrite !fmap_cons, body_key, IH. }
  split; [apply static_fold|]. rewrite Hidx. split.
  - by apply NoDup_filter.
  - intros idx. rewrite list_elem_of_filter, Hdone. tauto.
Qed.

End StaticDone.

(** The loop of a pass that adds each row it writes to [done]. *)
Section GrowingDone.
Context {A : Type} (key : A -> Z) (body : A -> Row).
Context (step : gset Z * ledger_file -> A -> gset Z * ledger_file).
Hypothesis step_eq : forall st x,
  step st x = if decide (key x ∈ st.1) then st
              else ({[key x]} ∪ st.1, append_record st.2 (body x)).
Hypothesis body_key : forall x, row_index (body x) = key x.

Lemma growing_fold l : forall done out,
  exists appended,
    rows_of (foldl step (done, out) l).2 = rows_of out ++ appended /\
    NoDup (row_index <$> appended) /\
    forall idx, idx ∈ (row_index <$> appended) <-> idx ∈ (key <$> l) /\ idx ∉ done.
Proof.
  induction l as [|x l IH]; intros done out.
  - exists []. simpl. rewrite app_nil_r. split; [done|]. split; [constructor|].
    intros idx. split; [by intros ?%elem_of_nil | by intros [?%elem_of_nil _]].
  - rewrite fmap_cons. cbn [foldl]. rewrite step_eq. cbn [fst snd]. case_decide as Hx.
    + destruct (IH done out) as (appended & Hrows & Hnd & Hiff).
      exists appended. split; [done|]. split; [done|].
      intros idx. rewrite Hiff, elem_of_cons. split.
      * intros [? ?]. auto.
      * intros [[->|?] ?]; [done | auto].
    + destruct (IH ({[key x]} ∪ done) (append_record out (body x)))
        as (appended & Hrows & Hnd & Hiff).
      exists (body x :: appended). rewrite Hrows, rows_of_append, <- app_assoc.
      split; [done|]. rewrite fmap_cons, body_key. split.
      * constructor; [|done]. rewrite Hiff. intros [_ Hnot].
        apply Hnot, elem_of_union_l, elem_of_singleton. done.
      * intros idx. rewrite !elem_of_cons, Hiff, not_elem_of_union, elem_of_singleton.
        split.
        -- intros [->|[? [? ?]]]; auto.
        -- intros [[->|?] ?]; [by left|].
           destruct (decide (idx = key x)) as [->|]; [by left | right; auto].
Qed.

Lemma growing_resumes l out :
  resumes (key <$> l) out (foldl step (load_done out, out) l).2.
Proof. apply growing_fold. Qed.

End GrowingDone.

Section PassFacts.

Lemma resumes_nothing out : resumes [] out out.
Proof.
  exists []. rewrite app_nil_r. split; [done|]. split; [constructor|].
  intros idx. split; [by intros ?%elem_of_nil | by intros [?%elem_of_nil _]].
Qed.

Lemma iloc_sublist {A} a b (l : list A) : sublist (Partition.iloc a b l) l.
Proof.
  unfold Partition.iloc. etransitivity; [apply sublist_take | apply sublist_drop].
Qed.

Lemma dublin_rows_NoDup csv : NoDup (Scrape.dublin_rows csv).*1.
Proof.
  unfold Scrape.dublin_rows.
  eapply sublist_NoDup; [|apply fmap_sublist, sublist_filter].
  rewrite fst_zip by (rewrite length_seqZ; lia). apply NoDup_seqZ.
Qed.

Lemma scrape_resumes csv n_workers worker portal out :
  resumes (Partition.df_chunk (Scrape.dublin_rows csv) n_workers worker).*1
          out (Scrape.main csv n_workers worker portal out).
Proof.
  unfold Scrape.main.
  apply (static_resumes fst
           (fun x => Scrape.harvest (Scrape.item_of worker x) (portal x.1))
           (load_done out)).
  - done.
  - intros x. apply scrape_harvest_row_index.
  - eapply sublist_NoDup; [apply dublin_rows_NoDup|].
    apply fmap_sublist, iloc_sublist.
  - done.
Qed.

Lemma rerun_page_resumes worklist portal out :
  resumes (row_index <$>
             filter (fun r => RerunPage.matches_page_goto
                                (PyStr.str_of_cell (error r)) = true)
                    (rows_of worklist))
          out (RerunPage.main worklist portal out).
Proof.
  unfold RerunPage.main. destruct worklist as [rows|]; [|apply resumes_nothing].
  simpl. destruct (filter _ rows) as [|r df] eqn:E; [apply resumes_nothing|].
  apply (growing_resumes row_index
           (fun r => RerunPage.harvest (RerunPage.item_of r) (portal (row_index r)))).
  - done.
  - intros x. apply rerun_page_harvest_row_index.
Qed.

Lemma rerun_download_resumes worklist portal out :
  resumes (Classifier.df_row_index <$> default [] worklist)
          out (RerunDownload.main worklist portal out).
Proof.
  unfold RerunDownload.main. destruct worklist as [[|w df]|]; try apply resumes_nothing.
  apply (growing_resumes Classifier.df_row_index
           (fun w => RerunDownload.redownload w (portal (Classifier.df_row_index w)))).
  - done.
  - intros x. apply redownload_row_index.
Qed.

End PassFacts.

(** ** Navigation and the no-records test *)

Section NavigationFacts.

(** The three attempts of [safe_goto], by cases on what the portal answers. *)
Lemma safe_goto_cases v :
  let nav := RerunPage.safe_goto v in
  match goto v 1%nat, goto v 2%nat, goto v 3%nat with
  | None, _, _ => nav = mkNavigation 1 [] None
  | Some _, None, _ => nav = mkNavigation 2 [6] None
  | Some _, Some _, None => nav = mkNavigation 3 [6; 12] None
  | Some _, Some _, Some e => nav = mkNavigation 3 [6; 12] (Some e)
  end.
Proof.
  unfold RerunPage.safe_goto. simpl.
  destruct (goto v 1%nat); [|done].
  destruct (goto v 2%nat); [|done].
  destruct (goto v 3%nat); done.
Qed.

Lemma safe_goto_backoff v :
  let nav := RerunPage.safe_goto v in
  (1 <= attempts_made nav <= RerunPage.GOTO_ATTEMPTS)%nat /\
  sleeps nav =
    (fun attempt => RerunPage.BACKOFF_BASE_S * Z.of_nat attempt) <$>
      seq 1 (attempts_made nav - 1) /\
  raised nav = goto v (attempts_made nav).
Proof.
  pose proof (safe_goto_cases v) as H. simpl in H.
  destruct (goto v 1%nat) eqn:E1;
    [destruct (goto v 2%nat) eqn:E2; [destruct (goto v 3%nat) eqn:E3|]|];
    rewrite H; unfold RerunPage.GOTO_ATTEMPTS, RerunPage.BACKOFF_BASE_S;
    simpl; rewrite ?E1, ?E2, ?E3; (split; [lia|]); split; reflexivity.
Qed.

End NavigationFacts.

Lemma no_records_iff v :
  Scrape.page_has_no_records v = true <->
  exists reads text, summary v = Some reads /\ reads 1%nat = Some text /\
                     PyStr.contains NO_RECORDS_MARKER text = true.
Proof.
  unfold Scrape.page_has_no_records. split.
  - destruct (summary v) as [reads|]; [|done].
    destruct (reads 1%nat) as [text|] eqn:E; [|done]. eauto.
  - intros (reads & text & -> & -> & H). done.
Qed.

(** ** Classification *)

Section ClassifierFacts.
Import Classifier.

Lemma failed_from_spec parts : forall i k,
  k ∈ failed_from i parts <->
  exists j, k = (i + j)%nat /\ parts !! j = Some DOWNLOAD_FAILED.
Proof.
  induction parts as [|p ps IH]; intros i k; simpl.
  - split; [by intros ?%elem_of_nil | by intros (j & _ & ?)].
  - case_decide as Hp.
    + rewrite elem_of_cons, IH. split.
      * intros [-> | (j & -> & Hj)].
        -- exists 0%nat. split; [lia | by rewrite Hp].
        -- exists (S j). split; [lia | done].
      * intros ([|j] & -> & Hj); [left; lia|].
        right. exists j. split; [lia | done].
    + rewrite IH. split.
      * intros (j & -> & Hj). exists (S j). split; [lia | done].
      * intros ([|j] & -> & Hj); [simpl in Hj; congruence|].
        exists j. split; [lia | done].
Qed.

Lemma step_fold rows : forall acc,
  foldl step acc rows =
  (acc.1 ++ filter (fun r => is_page_failure r = true) rows,
   acc.2 ++ (download_failure_of <$>
               filter (fun r => is_download_failure r = true) rows)).
Proof.
  induction rows as [|r rows IH]; intros [pg dl]; simpl.
  - by rewrite !app_nil_r.
  - rewrite IH. unfold step. simpl.
    destruct (is_page_failure r) eqn:Hp; simpl.
    + rewrite (filter_cons_True (fun r => is_page_failure r = true)) by done.
      rewrite (filter_cons_False (fun r => is_download_failure r = true))
        by (unfold is_download_failure; rewrite Hp; done).
      by rewrite <- app_assoc.
    + rewrite (filter_cons_False (fun r => is_page_failure r = true))
        by (rewrite Hp; done).
      destruct (PyStr.contains DOWNLOAD_FAILED (urls_text r)) eqn:Hd; simpl.
      * rewrite (filter_cons_True (fun r => is_download_failure r = true))
          by (unfold is_download_failure; rewrite Hp, Hd; done).
        by rewrite fmap_cons, <- app_assoc.
      * rewrite (filter_cons_False (fun r => is_download_failure r = true))
          by (unfold is_download_failure; rewrite Hp, Hd; done).
        done.
Qed.

Lemma collect_fold files : forall acc,
  foldl (fun acc f => match f with
                      | None => acc
                      | Some rows => foldl step acc rows
                      end) acc files =
  (acc.1 ++ filter (fun r => is_page_failure r = true) (concat (rows_of <$> files)),
   acc.2 ++ (download_failure_of <$>
               filter (fun r => is_download_failure r = true)
                      (concat (rows_of <$> files)))).
Proof.
  induction files as [|f files IH]; intros [pg dl]; simpl.
  - by rewrite !app_nil_r.
  - rewrite IH. destruct f as [rows|]; simpl; [|done].
    rewrite step_fold. simpl. by rewrite !filter_app, fmap_app, !app_assoc.
Qed.

Lemma page_failure_iff r :
  is_page_failure r = true <-> PyStr.contains "Page.goto" (error_text r) = true.
Proof.
  unfold is_page_failure. rewrite andb_true_iff. split; [by intros [_ ?]|].
  intros H. split; [|done]. by destruct (error_text r).
Qed.

End ClassifierFacts.

(** ** Merge *)

Section MergeFacts.
Import Merge.

Lemma filter_label_none rows idx :
  idx ∉ (row_index <$> rows) -> filter (fun r => row_index r = idx) rows = [].
Proof.
  induction rows as [|a rows IH]; [done|]. rewrite fmap_cons, not_elem_of_cons.
  intros [Hne Hnot]. rewrite filter_cons_False by (intros ?; done). by apply IH.
Qed.

Lemma filter_label_unique rows r :
  NoDup (row_index <$> rows) -> r ∈ rows ->
  filter (fun r' => row_index r' = row_index r) rows = [r].
Proof.
  induction rows as [|a rows IH]; [by intros _ ?%elem_of_nil|].
  rewrite fmap_cons, NoDup_cons. intros [Ha Hnd] [->|Hin]%elem_of_cons.
  - rewrite filter_cons_True by done. by rewrite filter_label_none.
  - rewrite filter_cons_False; [by apply IH|].
    intros Heq. apply Ha. rewrite Heq. by apply list_elem_of_fmap_2.
Qed.

Lemma loc_unique rows r :
  NoDup (row_index <$> rows) -> r ∈ rows -> loc rows (row_index r) = Some r.
Proof. intros Hnd Hin. unfold loc. by rewrite filter_label_unique. Qed.

Lemma loc_absent rows idx : idx ∉ (row_index <$> rows) -> loc rows idx = None.
Proof. intros H. unfold loc. by rewrite filter_label_none. Qed.

Lemma apply_page_fix_lookup rows :
  NoDup (row_index <$> rows) ->
  forall index base, index ⊆ (row_index <$> rows) ->
  exists fixed, apply_page_fix rows index base = Some fixed /\
    forall k, fixed !! k = if decide (k ∈ index) then loc rows k else base !! k.
Proof.
  intros Hnd. induction index as [|idx index IH]; intros base Hsub.
  - exists base. split; [done|]. intros k. rewrite decide_False; [done|].
    apply not_elem_of_nil.
  - assert (Hidx : idx ∈ (row_index <$> rows)) by (apply Hsub; left).
    apply list_elem_of_fmap in Hidx as (r & -> & Hr).
    destruct (IH (<[row_index r := r]> base)) as (fixed & Hfix & Hlook).
    { intros k Hk. apply Hsub. by right. }
    exists fixed. simpl. rewrite loc_unique by done. split; [done|].
    intros k. rewrite Hlook. destruct (decide (k ∈ index)) as [Hin|Hout].
    + rewrite decide_True; [done | by right].
    + destruct (decide (k = row_index r)) as [->|Hne].
      * rewrite decide_True by (by left).
        by rewrite lookup_insert_eq, loc_unique.
      * rewrite decide_False by (intros [?|?]%elem_of_cons; done).
        by rewrite lookup_insert_ne.
Qed.

Lemma patch_fold_lookup rows : forall base k,
  foldl patch_urls base rows !! k = patched rows k <$> base !! k.
Proof.
  induction rows as [|r rows IH]; intros base k.
  - simpl. unfold patched. simpl. by destruct (base !! k).
  - cbn [foldl]. rewrite IH. unfold patch_urls, patched. cbn [last_patch].
    destruct (base !! row_index r) as [target|] eqn:Ht.
    + destruct (decide (row_index r = k)) as [<-|Hne].
      * rewrite lookup_insert_eq, Ht. simpl.
        by destruct (last_patch rows (row_index r)).
      * rewrite lookup_insert_ne by done.
        by destruct (last_patch rows k).
    + destruct (decide (row_index r = k)) as [<-|Hne].
      * by rewrite Ht.
      * by destruct (last_patch rows k).
Qed.

Lemma last_patch_absent rows k :
  k ∉ (row_index <$> rows) -> last_patch rows k = None.
Proof.
  induction rows as [|r rows IH]; [done|]. rewrite fmap_cons, not_elem_of_cons.
  intros [Hne Hnot]. simpl. rewrite IH by done. by rewrite decide_False.
Qed.

Lemma last_patch_present rows k :
  k ∈ (row_index <$> rows) ->
  exists p, p ∈ rows /\ row_index p = k /\ last_patch rows k = Some (observation_urls p).
Proof.
  induction rows as [|r rows IH]; [by intros ?%elem_of_nil|].
  rewrite fmap_cons. intros Hin. simpl.
  destruct (decide (k ∈ (row_index <$> rows))) as [Hrest|Hrest].
  - destruct (IH Hrest) as (p & Hp & Hk & ->). exists p. split; [by right | done].
  - rewrite last_patch_absent by done.
    apply elem_of_cons in Hin as [->|?]; [|done].
    exists r. rewrite decide_True by done. split; [by left | done].
Qed.

Lemma drop_duplicates_labels rows : forall seen k,
  k ∈ (row_index <$> drop_duplicates seen rows) <->
  k ∈ (row_index <$> rows) /\ k ∉ seen.
Proof.
  induction rows as [|r rows IH]; intros seen k; simpl.
  - split; [by intros ?%elem_of_nil | by intros [?%elem_of_nil _]].
  - case_decide as Hr.
    + rewrite IH, elem_of_cons. split; [intros [? ?]; auto|].
      intros [[->|?] ?]; [done | auto].
    + rewrite fmap_cons, !elem_of_cons, IH, not_elem_of_union, elem_of_singleton.
      split.
      * intros [->|(? & ? & ?)]; auto.
      * intros [[->|?] ?]; [by left|].
        destruct (decide (k = row_index r)); [by left | right; auto].
Qed.

Lemma base_frame_dom workers :
  dom (base_frame workers) = list_to_set (row_index <$> concat workers).
Proof.
  unfold base_frame, set_index. rewrite dom_list_to_map_L.
  rewrite <- list_fmap_compose. apply set_eq. intros k.
  rewrite !elem_of_list_to_set.
  change (fst ∘ (fun r : Row => (row_index r, r))) with row_index.
  rewrite drop_duplicates_labels. split; [by intros [? _]|].
  intros ?. split; [done | apply not_elem_of_empty].
Qed.

(** The merged frame, row by row. *)
Lemma merge_lookup workers page_fix dl_fix :
  workers <> [] -> NoDup (labels page_fix) ->
  exists merged, merge workers page_fix dl_fix = Some merged /\
    forall k, merged !! k =
      patched (rows_of dl_fix) k <$>
        (if decide (k ∈ labels page_fix) then loc (rows_of page_fix) k
         else base_frame workers !! k).
Proof.
  intros Hw Hnd. unfold merge. destruct workers as [|w ws]; [done|].
  set (base := base_frame (w :: ws)).
  assert (Hpage : exists fixed,
    match page_fix with
    | None => Some base
    | Some rows => apply_page_fix rows (row_index <$> rows) base
    end = Some fixed /\
    forall k, fixed !! k = if decide (k ∈ labels page_fix)
                           then loc (rows_of page_fix) k else base !! k).
  { destruct page_fix as [rows|].
    - apply apply_page_fix_lookup; done.
    - exists base. split; [done|]. intros k. rewrite decide_False; [done|].
      apply not_elem_of_nil. }
  destruct Hpage as (fixed & -> & Hfixed).
  eexists. split; [reflexivity|]. intros k. rewrite <- Hfixed.
  destruct dl_fix as [rows|]; simpl.
  - apply patch_fold_lookup.
  - unfold patched. simpl. by destruct (fixed !! k).
Qed.

End MergeFacts.


(** ** The failed positions, written by the classifier and read by the retry *)

Section FailedPositionsText.
Import PyStr.

Lemma all_chars_impl (P Q : ascii -> bool) s :
  (forall c, P c = true -> Q c = true) ->
  all_chars P s = true -> all_chars Q s = true.
Proof.
  intros HPQ. induction s as [|c s IH]; [done|]. simpl.
  rewrite !andb_true_iff. intros [? ?]. auto.
Qed.

Lemma all_chars_append P s t :
  all_chars P s = true -> all_chars P t = true -> all_chars P (s +:+ t) = true.
Proof.
  intros Hs Ht. induction s as [|c s IH]; [done|].
  rewrite append_cons. simpl in *. apply andb_true_iff in Hs as [? ?].
  apply andb_true_iff. auto.
Qed.

Lemma all_chars_join P sep parts :
  all_chars P sep = true -> Forall (fun p => all_chars P p = true) parts ->
  all_chars P (join sep parts) = true.
Proof.
  intros Hsep Hparts. induction Hparts as [|p parts Hp Hps IH]; [done|].
  unfold join in *. cbn [String.concat]. destruct parts as [|q parts]; [done|].
  apply all_chars_append; [done|]. apply all_chars_append; done.
Qed.

Lemma strip_clean s :
  all_chars (fun c => negb (is_space c)) s = true -> strip s = s.
Proof.
  intros Hs. unfold strip.
  assert (Hl : lstrip s = s).
  { destruct s as [|c s]; [done|]. simpl in *.
    apply andb_true_iff in Hs as [Hc _]. by destruct (is_space c). }
  rewrite Hl. induction s as [|c s IH]; [done|].
  simpl in Hs. apply andb_true_iff in Hs as [Hc Hs]. cbn [rstrip].
  rewrite IH; [|done|by destruct s as [|d s]; [|simpl in *; apply andb_true_iff in Hs as [Hd _]; destruct (is_space d)]].
  destruct s; [|done]. by destruct (is_space c).
Qed.

Lemma contains_none P c s :
  P c = false -> all_chars P s = true -> contains (String c EmptyString) s = false.
Proof.
  intros Hc. induction s as [|d s IH]; [done|]. simpl all_chars.
  rewrite andb_true_iff. intros [Hd Hs]. cbn [contains String.prefix].
  destruct (ascii_dec c d) as [->|_]; [congruence|]. by apply IH.
Qed.

Lemma is_digit_cases c :
  is_digit c = true ->
  c ∈ ["0"; "1"; "2"; "3"; "4"; "5"; "6"; "7"; "8"; "9"]%char.
Proof.
  destruct c as [[] [] [] [] [] [] [] []]; vm_compute; try discriminate;
    intros _; repeat (first [by left | right]).
Qed.


Lemma digits_of_uint d : forall acc : nat,
  RerunDownload.digits (NilEmpty.string_of_uint d) (Z.of_nat acc) =
  Some (Z.of_nat (Nat.of_uint_acc d acc)).
Proof.
  induction d as [|d IH|d IH|d IH|d IH|d IH|d IH|d IH|d IH|d IH|d IH];
    intros acc; [done|..];
    cbn [NilEmpty.string_of_uint RerunDownload.digits Nat.of_uint_acc];
    rewrite <- IH, Nat.tail_mul_spec; vm_compute RerunDownload.digit_of;
    cbv iota; f_equal; lia.
Qed.

Lemma all_digits_of_uint d :
  all_chars is_digit (NilEmpty.string_of_uint d) = true.
Proof. induction d; simpl; done. Qed.

Lemma str_of_nat_digits i :
  all_chars is_digit (Classifier.str_of_nat i) = true /\
  Classifier.str_of_nat i <> EmptyString /\
  RerunDownload.digits (Classifier.str_of_nat i) 0 = Some (Z.of_nat i).
Proof.
  unfold Classifier.str_of_nat.
  pose proof (DecimalNat.Unsigned.of_to i) as Hof. unfold Nat.of_uint in Hof.
  set (d := Nat.to_uint i) in *.
  assert (Hv : RerunDownload.digits (NilEmpty.string_of_uint d) 0 = Some (Z.of_nat i))
    by (rewrite <- Hof; apply (digits_of_uint d 0)).
  clearbody d. destruct d; cbn [NilZero.string_of_uint];
    try (split; [apply all_digits_of_uint | split; [done | exact Hv]]).
  simpl in Hv. rewrite <- Hv. done.
Qed.

Lemma digit_not_space c : is_digit c = true -> negb (is_space c) = true.
Proof.
  intros Hc%is_digit_cases. repeat (apply elem_of_cons in Hc as [->|Hc]; [done|]).
  by apply elem_of_nil in Hc.
Qed.

Lemma py_int_digits s :
  s <> EmptyString -> all_chars is_digit s = true ->
  RerunDownload.py_int s = RerunDownload.digits s 0.
Proof.
  intros Hne Hs. unfold RerunDownload.py_int.
  rewrite strip_clean by (eapply all_chars_impl; [apply digit_not_space | done]).
  destruct s as [|c s]; [done|]. simpl in Hs. apply andb_true_iff in Hs as [Hc _].
  apply is_digit_cases in Hc.
  repeat (apply elem_of_cons in Hc as [->|Hc]; [done|]).
  by apply elem_of_nil in Hc.
Qed.

Lemma py_int_str_of_nat i :
  RerunDownload.py_int (Classifier.str_of_nat i) = Some (Z.of_nat i).
Proof.
  destruct (str_of_nat_digits i) as (Hd & Hne & Hv).
  by rewrite py_int_digits.
Qed.


Lemma str_of_nat_clean i :
  strip (Classifier.str_of_nat i) = Classifier.str_of_nat i.
Proof.
  apply strip_clean. eapply all_chars_impl; [apply digit_not_space|].
  apply str_of_nat_digits.
Qed.

Lemma parse_parts_fold (l : list nat) : forall acc : gset Z,
  foldl (fun out part =>
           let part := strip part in
           if decide (part = EmptyString) then out
           else match RerunDownload.py_int part with
                | Some i => {[i]} ∪ out
                | None => out
                end)
        acc (Classifier.str_of_nat <$> l) =
  list_to_set (Z.of_nat <$> l) ∪ acc.
Proof.
  induction l as [|i l IH]; intros acc.
  - simpl. by rewrite (left_id_L ∅ (∪)).
  - rewrite !fmap_cons. cbn [foldl]. cbv zeta. rewrite str_of_nat_clean.
    rewrite decide_False by apply str_of_nat_digits.
    rewrite py_int_str_of_nat, IH, list_to_set_cons.
    rewrite (assoc_L (∪)). f_equal. apply (comm_L (∪)).
Qed.

(** The failed positions the classifier writes are the ones the retry
    reads. *)
Lemma failed_positions_read_back (l : list nat) :
  RerunDownload.parse_failed_positions
    (join "," (Classifier.str_of_nat <$> l)) =
  list_to_set (Z.of_nat <$> l).
Proof.
  destruct l as [|i l]; [vm_compute; reflexivity|].
  set (text := join "," (Classifier.str_of_nat <$> i :: l)).
  assert (Hne : text <> EmptyString)
    by (apply join_nonempty, str_of_nat_digits).
  assert (Hdigits : Forall (fun p => all_chars is_digit p = true)
                           (Classifier.str_of_nat <$> i :: l))
    by (apply Forall_fmap, Forall_forall; intros ? _; apply str_of_nat_digits).
  assert (Hclean : strip text = text).
  { apply strip_clean, all_chars_join; [done|].
    eapply Forall_impl; [exact Hdigits|]. intros p Hp.
    eapply all_chars_impl; [apply digit_not_space | exact Hp]. }
  unfold RerunDownload.parse_failed_positions, str_of_cell.
  rewrite decide_False by done. rewrite Hclean.
  assert (Ht : truthy text = true) by (destruct text; done).
  rewrite Ht. unfold text at 1.
  rewrite split_join.
  - rewrite parse_parts_fold. apply (right_id_L ∅ (∪)).
  - done.
  - eapply Forall_impl; [exact Hdigits|]. intros p Hp.
    by apply (contains_none is_digit).
Qed.

End FailedPositionsText.

(** ** The pipeline on one item *)

Section ReadBack.

Lemma scrape_icons_elems icons : forall urls x,
  x ∈ Scrape.resolve_icons icons urls ->
  x ∈ urls \/ x = DOWNLOAD_FAILED \/ Resolved x ∈ icons.
Proof.
  induction icons as [|[u|] icons IH]; intros urls x; simpl; [auto|..].
  - intros Hx. apply IH in Hx as [Hx|[?|?]].
    + apply elem_of_app in Hx as [?|Hx]; [auto|].
      apply list_elem_of_singleton in Hx as ->. right; right. by left.
    + auto.
    + right; right. by right.
  - intros Hx. apply IH in Hx as [Hx|[?|?]].
    + apply elem_of_app in Hx as [?|Hx]; [auto|].
      apply list_elem_of_singleton in Hx as ->. auto.
    + auto.
    + right; right. by right.
Qed.

Lemma scrape_crawl_elems l : forall urls urls' x,
  Scrape.crawl l urls = Returned urls' -> x ∈ urls' ->
  x ∈ urls \/ x = DOWNLOAD_FAILED \/ Resolved x ∈ listing_icons l.
Proof.
  induction l as [icons|icons rest IH|icons e]; intros urls urls' x; simpl.
  - intros [= <-]. apply scrape_icons_elems.
  - intros Hc Hx. destruct (IH _ _ _ Hc Hx) as [Hin|[?|?]]; auto.
    + apply scrape_icons_elems in Hin as [?|[?|?]]; auto.
      right; right. apply elem_of_app. by left.
    + right; right. apply elem_of_app. by right.
  - done.
Qed.

(** When no locator of the listing is empty or holds a semicolon, the
    count written by the harvest is the number of positions a later pass
    reads back from the row. *)
Lemma harvest_count_read_back it v urls :
  raised (Scrape.navigate v) = None ->
  Scrape.page_has_no_records v = false ->
  Scrape.extract_all_pages_observations (pages v) = Returned urls ->
  (forall x, Resolved x ∈ listing_icons (pages v) ->
             x <> EmptyString /\ PyStr.contains ";" x = false) ->
  positions_of (observation_urls (Scrape.harvest it v)) = urls /\
  n_observation_letters (Scrape.harvest it v) =
    len (positions_of (observation_urls (Scrape.harvest it v))).
Proof.
  intros Hnav Hrec Hcrawl Hclean. unfold Scrape.harvest.
  rewrite Hnav, Hrec, Hcrawl. cbn [set_observations observation_urls n_observation_letters].
  assert (E : positions_of (PyStr.join ";" urls) = urls).
  { apply positions_read_back, Forall_forall. intros x Hx.
    destruct (scrape_crawl_elems _ _ _ _ Hcrawl Hx) as [Hnil|[->|?]];
      [by apply elem_of_nil in Hnil | done | auto]. }
  by rewrite E.
Qed.

(** The targeted retry of a row the classifier listed leaves every position
    that does not hold [DOWNLOAD_FAILED] as it was. *)
Lemma classified_positions_retried r v updated :
  let w := Classifier.download_failure_of r in
  RerunDownload.crawl_and_redownload_failed_positions v
    (RerunDownload.original_urls w)
    (RerunDownload.parse_failed_positions (Classifier.df_failed_positions w))
    = Returned updated ->
  length updated = length (RerunDownload.original_urls w) /\
  forall i, Classifier.parts_of r !! i <> Some DOWNLOAD_FAILED ->
            updated !! i = RerunDownload.original_urls w !! i.
Proof.
  intros w Hcrawl.
  unfold RerunDownload.crawl_and_redownload_failed_positions in Hcrawl.
  pose proof (crawl_retouched (obs_file_exists v)
    (RerunDownload.parse_failed_positions (Classifier.df_failed_positions w))
    (pages v) (RerunDownload.original_urls w) 0) as H.
  rewrite Hcrawl in H. split; [apply H|].
  intros i Hi. eapply retouched_frame; [exact H|].
  unfold w. cbn [Classifier.download_failure_of Classifier.df_failed_positions].
  rewrite failed_positions_read_back, elem_of_list_to_set.
  intros (j & Hj & Hin)%list_elem_of_fmap. apply Nat2Z.inj in Hj as ->.
  apply failed_from_spec in Hin as (k & -> & Hk). done.
Qed.

End ReadBack.

Section Scenario.

(** Item D: three icons, the second one fails; the harvest writes the
    three positions, the classifier lists position 1, the retry fills it,
    the merge patches the row. *)
Example scenario_harvest : Scrape.harvest sample_item visit_D = row_D.
Proof. reflexivity. Qed.

Example scenario_classified :
  Classifier.collect [Some [row_D]] = ([], [worklist_D]).
Proof. vm_compute. reflexivity. Qed.

Example scenario_retry :
  positions_of (observation_urls (RerunDownload.redownload worklist_D visit_D_retry)) =
  ["https://portal/doc/1"; "https://portal/doc/2"; "https://portal/doc/3"].
Proof. vm_compute. reflexivity. Qed.

Example scenario_retry_still_failing :
  RerunDownload.redownload worklist_D visit_D =
  set_observations row_D
    ["https://portal/doc/1"; DOWNLOAD_FAILED; "https://portal/doc/3"].
Proof. vm_compute. reflexivity. Qed.

Example scenario_merged :
  (Merge.merge [[row_D]] None
     (Some [RerunDownload.redownload worklist_D visit_D_retry])
   ≫= fun merged => merged !! 7) =
  Some (set_observation_urls row_D
          "https://portal/doc/1;https://portal/doc/2;https://portal/doc/3").
Proof. vm_compute. reflexivity. Qed.

(** A shard of three items; the worker stopped after the first row. The
    relaunch appends the rows of the other two. *)
Example scenario_resume :
  let csv := [Scrape.mkApplication "Dublin City Council" "A";
              Scrape.mkApplication "Dublin City Council" "B";
              Scrape.mkApplication "Dublin City Council" "C"] in
  let first_run := Scrape.step 0 (fun _ => visit_D) ∅ None
                     (0, Scrape.mkApplication "Dublin City Council" "A") in
  labels first_run = [0] /\
  labels (Scrape.main csv 1 0 (fun _ => visit_D) first_run) = [0; 1; 2].
Proof. split; vm_compute; reflexivity. Qed.

End Scenario.

(** ** Further lemmas on the crawls, the text columns, the shards and the merges *)

Section FullCrawls.

Lemma scrape_icons_positions icons : forall urls,
  Scrape.resolve_icons icons urls = urls ++ (position_of <$> icons).
Proof.
  induction icons as [|[u|] icons IH]; intros urls; simpl.
  - by rewrite app_nil_r.
  - by rewrite IH, <- app_assoc.
  - by rewrite IH, <- app_assoc.
Qed.

Lemma scrape_crawl_positions l : forall urls,
  Scrape.crawl l urls =
  match first_raise l with
  | Some exn => Raised exn
  | None => Returned (urls ++ (position_of <$> listing_icons l))
  end.
Proof.
  induction l as [icons|icons rest IH|icons e]; intros urls; simpl.
  - by rewrite scrape_icons_positions.
  - rewrite IH, scrape_icons_positions. destruct (first_raise rest); [done|].
    by rewrite fmap_app, app_assoc.
  - done.
Qed.

Lemma rerun_icons_positions on_disk icons : forall urls,
  RerunPage.resolve_icons on_disk icons urls =
  urls ++ imap (fun i => position_on_disk on_disk (length urls + i)) icons.
Proof.
  induction icons as [|icon icons IH]; intros urls; cbn [RerunPage.resolve_icons imap].
  - by rewrite app_nil_r.
  - rewrite Nat.add_0_r.
    assert (Htail : forall v,
      imap (fun i => position_on_disk on_disk (length (urls ++ [v]) + i)) icons =
      imap ((fun i => position_on_disk on_disk (length urls + i)) ∘ S) icons).
    { intros v. apply imap_ext. intros i x _. simpl. rewrite length_app. simpl.
      f_equal. lia. }
    destruct (on_disk (length urls + 1)%nat) eqn:E.
    + rewrite IH, <- app_assoc, Htail. cbn [app]. do 2 f_equal.
      unfold position_on_disk. by rewrite E.
    + destruct icon as [u|]; rewrite IH, <- app_assoc, Htail; cbn [app];
        do 2 f_equal; unfold position_on_disk; by rewrite E.
Qed.

Lemma rerun_crawl_positions on_disk l : forall urls,
  RerunPage.crawl on_disk l urls =
  match first_raise l with
  | Some exn => Raised exn
  | None =>
      Returned (urls ++ imap (fun i => position_on_disk on_disk (length urls + i))
                             (listing_icons l))
  end.
Proof.
  induction l as [icons|icons rest IH|icons e]; intros urls; simpl.
  - by rewrite rerun_icons_positions.
  - rewrite IH, rerun_icons_positions. destruct (first_raise rest); [done|].
    rewrite imap_app, <- app_assoc, length_app, length_imap. do 3 f_equal.
    apply imap_ext. intros i x _. simpl. f_equal. lia.
  - done.
Qed.

End FullCrawls.

Section TargetedRetry.
Context (on_disk : nat -> bool) (failed : gset Z).

Lemma retried_from_length k icons urls :
  length (retried_from on_disk failed k icons urls) = length urls.
Proof. apply length_imap. Qed.

Lemma retried_from_past k icons urls :
  (length urls <= k)%nat -> retried_from on_disk failed k icons urls = urls.
Proof.
  intros Hk. apply list_eq. intros i. unfold retried_from.
  rewrite list_lookup_imap. destruct (urls !! i) as [x|] eqn:Hx; [|done].
  apply lookup_lt_Some in Hx. simpl. by rewrite decide_True by lia.
Qed.

Lemma retried_from_nil k urls :
  retried_from on_disk failed k [] urls = urls.
Proof.
  apply list_eq. intros i. unfold retried_from.
  rewrite list_lookup_imap. destruct (urls !! i) as [x|]; [|done].
  simpl. by destruct (decide (i < k)%nat).
Qed.

(** One icon: the slot [k] is settled, the others wait for the next
    icons. *)
Lemma retried_from_cons k icon icons urls v :
  (k < length urls)%nat ->
  v = (if decide (Z.of_nat k ∈ failed) then position_on_disk on_disk k icon
       else default EmptyString (urls !! k)) ->
  retried_from on_disk failed (S k) icons (<[k := v]> urls) =
  retried_from on_disk failed k (icon :: icons) urls.
Proof.
  intros Hk Hv. apply list_eq. intros i. unfold retried_from.
  rewrite !list_lookup_imap.
  destruct (decide (i = k)) as [->|Hne].
  - rewrite list_lookup_insert_eq by done.
    destruct (urls !! k) as [x|] eqn:Hx; [|apply lookup_ge_None in Hx; lia].
    simpl. rewrite decide_True by lia. rewrite decide_False by lia.
    rewrite Nat.sub_diag. simpl. rewrite Hv. by case_decide.
  - rewrite list_lookup_insert_ne by done.
    destruct (urls !! i) as [x|]; [|done]. simpl.
    destruct (decide (i < k)%nat).
    + by rewrite decide_True by lia.
    + rewrite decide_False by lia.
      replace (i - k)%nat with (S (i - S k)) by lia. done.
Qed.

Lemma retry_icons_spec icons : forall urls k,
  match RerunDownload.retry_icons on_disk failed icons urls k with
  | inl u =>
      u = retried_from on_disk failed k icons urls /\
      (length urls < k + length icons)%nat
  | inr (u, k') =>
      u = retried_from on_disk failed k icons urls /\
      k' = (k + length icons)%nat
  end.
Proof.
  induction icons as [|icon icons IH]; intros urls k.
  - simpl. rewrite retried_from_nil. split; [done | lia].
  - cbn [RerunDownload.retry_icons].
    case_decide as Hlen.
    { rewrite retried_from_past by lia. split; [done | simpl; lia]. }
    assert (Hnext : forall v,
      v = (if decide (Z.of_nat k ∈ failed) then position_on_disk on_disk k icon
           else default EmptyString (urls !! k)) ->
      match RerunDownload.retry_icons on_disk failed icons (<[k := v]> urls) (S k) with
      | inl u =>
          u = retried_from on_disk failed k (icon :: icons) urls /\
          (length urls < k + length (icon :: icons))%nat
      | inr (u, k') =>
          u = retried_from on_disk failed k (icon :: icons) urls /\
          k' = (k + length (icon :: icons))%nat
      end).
    { intros v Hv. specialize (IH (<[k := v]> urls) (S k)).
      rewrite (retried_from_cons k icon icons urls v) in IH by (done || lia).
      rewrite length_insert in IH.
      destruct (RerunDownload.retry_icons _ _ _ _ _) as [u|[u k']].
      - destruct IH as [-> ?]. split; [done | simpl; lia].
      - destruct IH as [-> ->]. split; [done | simpl; lia]. }
    destruct (decide (Z.of_nat k ∉ failed)) as [Hk|Hk].
    + destruct (urls !! k) as [x|] eqn:Hx; [|apply lookup_ge_None in Hx; lia].
      specialize (Hnext x). rewrite list_insert_id in Hnext by done.
      apply Hnext. by rewrite decide_False.
    + assert (Hin : Z.of_nat k ∈ failed)
        by (destruct (decide (Z.of_nat k ∈ failed)); done).
      destruct (on_disk (k + 1)%nat) eqn:E.
      * apply Hnext. rewrite decide_True by done.
        unfold position_on_disk. by rewrite E.
      * destruct icon as [u|]; apply Hnext; rewrite decide_True by done;
          unfold position_on_disk; by rewrite E.
Qed.

Lemma retried_from_beyond k icons more urls :
  (length urls <= k + length icons)%nat ->
  retried_from on_disk failed k (icons ++ more) urls =
  retried_from on_disk failed k icons urls.
Proof.
  intros Hlen. apply list_eq. intros i. unfold retried_from.
  rewrite !list_lookup_imap.
  destruct (urls !! i) as [x|] eqn:Hx; [|done]. simpl.
  apply lookup_lt_Some in Hx.
  destruct (decide (i < k)%nat); [done|]. by rewrite lookup_app_l by lia.
Qed.

Lemma retried_from_app k icons more urls :
  retried_from on_disk failed (k + length icons) more
    (retried_from on_disk failed k icons urls) =
  retried_from on_disk failed k (icons ++ more) urls.
Proof.
  apply list_eq. intros i. unfold retried_from. rewrite !list_lookup_imap.
  destruct (urls !! i) as [x|]; [|done]. simpl.
  destruct (decide (i < k)%nat).
  - by rewrite decide_True by lia.
  - destruct (decide (i < k + length icons)%nat).
    + by rewrite lookup_app_l by lia.
    + rewrite (lookup_ge_None_2 icons) by lia.
      rewrite lookup_app_r by lia.
      by replace (i - k - length icons)%nat with (i - (k + length icons))%nat by lia.
Qed.

Lemma retry_crawl_spec l : forall urls k,
  match RerunDownload.crawl on_disk failed l urls k with
  | Returned u => u = retried_from on_disk failed k (listing_icons l) urls
  | Raised exn => first_raise l = Some exn
  end.
Proof.
  induction l as [icons|icons rest IH|icons e]; intros urls k; simpl.
  - pose proof (retry_icons_spec icons urls k) as H.
    destruct (RerunDownload.retry_icons _ _ _ _ _) as [u|[u k']]; apply H.
  - pose proof (retry_icons_spec icons urls k) as H.
    destruct (RerunDownload.retry_icons _ _ _ _ _) as [u|[u k']] eqn:E.
    + destruct H as [-> Hlen]. by rewrite retried_from_beyond by lia.
    + destruct H as [-> ->]. specialize (IH (retried_from on_disk failed k icons urls)
                                            (k + length icons)%nat).
      destruct (RerunDownload.crawl _ _ _ _ _); [|done].
      by rewrite IH, retried_from_app.
  - pose proof (retry_icons_spec icons urls k) as H.
    destruct (RerunDownload.retry_icons _ _ _ _ _) as [u|[u k']]; [apply H | done].
Qed.

(** A page with more icons than positions left: the function returns from
    inside the icon loop. *)
Lemma retry_icons_returns icons : forall urls k,
  (k <= length urls)%nat -> (length urls < k + length icons)%nat ->
  exists u, RerunDownload.retry_icons on_disk failed icons urls k = inl u.
Proof.
  induction icons as [|icon icons IH]; intros urls k Hk Hlen.
  - simpl in Hlen. lia.
  - cbn [RerunDownload.retry_icons]. case_decide; [eauto|].
    assert (Hrec : forall v, exists u,
      RerunDownload.retry_icons on_disk failed icons (<[k := v]> urls) (S k) = inl u).
    { intros v. apply IH; rewrite length_insert; simpl in Hlen; lia. }
    destruct (decide (Z.of_nat k ∉ failed)).
    + destruct (urls !! k) as [x|] eqn:Hx; [|apply lookup_ge_None in Hx; lia].
      destruct (Hrec x) as [u Hu]. rewrite list_insert_id in Hu by done. eauto.
    + destruct (on_disk (k + 1)%nat); [apply Hrec|]. destruct icon; apply Hrec.
Qed.

End TargetedRetry.

Section Round2Spec.

Lemma round2_step_spec icons urls u i :
  (forall j, (i <= j)%nat -> u !! j = urls !! j) ->
  (forall j, (j < i)%nat -> u !! j = round2_retried icons urls !! j) ->
  length u = length urls ->
  let u' := Round2.retry_step icons u i in
  (forall j, (S i <= j)%nat -> u' !! j = urls !! j) /\
  (forall j, (j < S i)%nat -> u' !! j = round2_retried icons urls !! j) /\
  length u' = length urls.
Proof.
  intros Hlater Hdone Hlen. cbv zeta. unfold Round2.retry_step.
  assert (Hi : round2_retried icons urls !! i =
               (fun x => if decide (x = DOWNLOAD_FAILED)
                         then match icons !! i with
                              | Some (Resolved d) => d
                              | _ => x
                              end
                         else x) <$> urls !! i)
    by (unfold round2_retried; by rewrite list_lookup_imap).
  rewrite (Hlater i) by lia.
  destruct (urls !! i) as [x|] eqn:Hx.
  - simpl in Hi. destruct (decide (x = DOWNLOAD_FAILED)) as [->|Hne].
    + rewrite (decide_False (P := DOWNLOAD_FAILED <> DOWNLOAD_FAILED)) by (intros ?; done).
      destruct (icons !! i) as [[d|]|] eqn:Hicon.
      * split; [|split; [|by rewrite length_insert]].
        -- intros j Hj. rewrite list_lookup_insert_ne by lia. apply Hlater. lia.
        -- intros j Hj. destruct (decide (j = i)) as [->|].
           ++ rewrite list_lookup_insert_eq by (apply lookup_lt_Some in Hx; lia).
              by rewrite Hi.
           ++ rewrite list_lookup_insert_ne by lia. apply Hdone. lia.
      * split; [auto with lia|]. split; [|done].
        intros j Hj. destruct (decide (j = i)) as [->|]; [|apply Hdone; lia].
        rewrite Hi. rewrite Hlater by lia. done.
      * split; [auto with lia|]. split; [|done].
        intros j Hj. destruct (decide (j = i)) as [->|]; [|apply Hdone; lia].
        rewrite Hi. rewrite Hlater by lia. done.
    + rewrite (decide_True (P := x <> DOWNLOAD_FAILED)) by done.
      split; [auto with lia|]. split; [|done].
      intros j Hj. destruct (decide (j = i)) as [->|]; [|apply Hdone; lia].
      rewrite Hi. rewrite Hlater by lia. done.
  - split; [auto with lia|]. split; [|done].
    intros j Hj. destruct (decide (j = i)) as [->|]; [|apply Hdone; lia].
    rewrite Hi. rewrite Hlater by lia. done.
Qed.

Lemma round2_fold_spec icons urls n : forall u i,
  (forall j, (i <= j)%nat -> u !! j = urls !! j) ->
  (forall j, (j < i)%nat -> u !! j = round2_retried icons urls !! j) ->
  length u = length urls ->
  let u' := foldl (Round2.retry_step icons) u (seq i n) in
  (forall j, (i + n <= j)%nat -> u' !! j = urls !! j) /\
  (forall j, (j < i + n)%nat -> u' !! j = round2_retried icons urls !! j) /\
  length u' = length urls.
Proof.
  induction n as [|n IH]; intros u i Hlater Hdone Hlen; cbn [seq foldl].
  - rewrite Nat.add_0_r. auto.
  - destruct (round2_step_spec icons urls u i Hlater Hdone Hlen) as (H1 & H2 & H3).
    destruct (IH _ (S i) H1 H2 H3) as (H4 & H5 & H6).
    replace (i + S n)%nat with (S i + n)%nat by lia. auto.
Qed.

Lemma round2_retry_spec icons urls :
  Round2.retry_failed icons urls = round2_retried icons urls.
Proof.
  destruct (round2_fold_spec icons urls (length urls) urls 0) as (_ & H & Hlen);
    [done | intros j Hj; lia | done |].
  apply list_eq. intros j. unfold Round2.retry_failed.
  destruct (decide (j < length urls)%nat); [by apply H|].
  rewrite !lookup_ge_None_2; [done | | ].
  - unfold round2_retried. rewrite length_imap. lia.
  - simpl in Hlen. lia.
Qed.

End Round2Spec.

Section StripFacts.
Import PyStr.

Lemma str_prefix_nil_l s : String.prefix EmptyString s = true.
Proof. by destruct s. Qed.

Lemma str_prefix_cons c p d s :
  String.prefix (String c p) (String d s) = true <-> c = d /\ String.prefix p s = true.
Proof.
  simpl. destruct (ascii_dec c d); [tauto|]. split; [done | by intros [? _]].
Qed.

Lemma str_prefix_nil_r p : String.prefix p EmptyString = true -> p = EmptyString.
Proof. by destruct p. Qed.

Lemma str_prefix_rstrip s : forall p,
  String.prefix p (rstrip s) = true -> String.prefix p s = true.
Proof.
  induction s as [|c s IH]; intros p; [done|]. cbn [rstrip].
  destruct p as [|d p]; [done|].
  destruct (rstrip s) as [|e t] eqn:E.
  - destruct (is_space c); [done|].
    intros [-> Hp]%str_prefix_cons. apply str_prefix_nil_r in Hp as ->.
    apply str_prefix_cons. split; [done | apply str_prefix_nil_l].
  - intros [-> Hp]%str_prefix_cons. apply str_prefix_cons. split; [done|]. by apply IH.
Qed.

Lemma contains_nil_l s : contains EmptyString s = true.
Proof. destruct s; done. Qed.

Lemma contains_nil_r p : contains p EmptyString = true -> p = EmptyString.
Proof. cbn [contains]. destruct (String.prefix p EmptyString) eqn:E; [|done].
  intros _. by apply str_prefix_nil_r. Qed.

Lemma contains_rstrip p s : contains p (rstrip s) = true -> contains p s = true.
Proof.
  destruct p as [|d p]; [intros _; apply contains_nil_l|].
  induction s as [|c s IH]; [done|]. cbn [rstrip].
  destruct (rstrip s) as [|e t] eqn:E.
  - destruct (is_space c); [by intros ?%contains_nil_r|].
    intros H. cbn [contains] in H.
    destruct (String.prefix (String d p) (String c EmptyString)) eqn:Hp.
    + apply str_prefix_cons in Hp as [-> Hp]. apply str_prefix_nil_r in Hp as ->.
      apply contains_prefix, str_prefix_cons. split; [done | apply str_prefix_nil_l].
    + simpl in H. done.
  - intros H. cbn [contains] in H.
    destruct (String.prefix (String d p) (String c (String e t))) eqn:Hp.
    + apply contains_prefix.
      apply str_prefix_cons in Hp as [-> Hp]. apply str_prefix_cons. split; [done|].
      apply str_prefix_rstrip. by rewrite E.
    + apply contains_tail, IH. exact H.
Qed.

Lemma contains_lstrip p s : contains p (lstrip s) = true -> contains p s = true.
Proof.
  induction s as [|c s IH]; [done|]. cbn [lstrip].
  destruct (is_space c); [|done]. intros H. by apply contains_tail, IH.
Qed.

Lemma contains_strip p s : contains p (strip s) = true -> contains p s = true.
Proof. intros H. by apply contains_lstrip, contains_rstrip. Qed.

Lemma str_prefix_split p s :
  String.prefix p s = true -> exists rest, s = p +:+ rest.
Proof.
  revert s. induction p as [|c p IH]; intros s; [by exists s|].
  destruct s as [|d s]; [done|]. intros [-> Hp]%str_prefix_cons.
  destruct (IH s Hp) as [rest ->]. by exists rest.
Qed.

Lemma page_goto_matches s :
  contains "Page.goto" s = true -> RerunPage.matches_page_goto s = true.
Proof.
  induction s as [|c s IH]; [done|]. cbn [contains].
  destruct (String.prefix "Page.goto" (String c s)) eqn:Hp.
  - intros _. apply str_prefix_split in Hp as [rest Hs]. rewrite Hs.
    cbv [append]. cbn. by rewrite str_prefix_nil_l.
  - intros H. cbn [RerunPage.matches_page_goto]. rewrite (IH H).
    apply orb_true_r.
Qed.

End StripFacts.

Section ShardSizes.
Import Partition.
Context {A : Type}.

Lemma df_chunk_length (df : list A) (n w : Z) :
  0 <= w < n ->
  Z.of_nat (length (df_chunk df n w)) =
  stop (Z.of_nat (length df)) n w - start (Z.of_nat (length df)) n w.
Proof.
  intros Hw. unfold df_chunk.
  destruct (shard_in_range (Z.of_nat (length df)) n w) as [Hr1 Hr2]; [lia..|].
  rewrite iloc_in_range by lia. rewrite length_take, length_drop. lia.
Qed.

Lemma concat_fmap_fmap {B C} (f : B -> C) (g : Z -> list B) (ws : list Z) :
  concat ((fun w => f <$> g w) <$> ws) = f <$> concat (g <$> ws).
Proof.
  induction ws as [|w ws IH]; [done|].
  rewrite !fmap_cons. cbn [concat]. by rewrite IH, fmap_app.
Qed.

End ShardSizes.

Section WorkerFolds.

Lemma append_fold {A} (body : A -> Row) (l : list A) : forall out,
  rows_of (foldl (fun out x => append_record out (body x)) out l) =
  rows_of out ++ (body <$> l).
Proof.
  induction l as [|x l IH]; intros out; simpl.
  - by rewrite app_nil_r.
  - by rewrite IH, rows_of_append, <- app_assoc.
Qed.

Lemma filter_all_true {A} (P : A -> Prop) `{!forall x, Decision (P x)} (l : list A) :
  (forall x, P x) -> filter P l = l.
Proof.
  intros HP. induction l as [|x l IH]; [done|].
  rewrite filter_cons_True by done. by rewrite IH.
Qed.

Lemma scrape_main_rows csv n w portal out :
  rows_of (Scrape.main csv n w portal out) =
  rows_of out ++
  ((fun x => Scrape.harvest (Scrape.item_of w x) (portal x.1)) <$>
     filter (fun x => x.1 ∉ load_done out)
            (Partition.df_chunk (Scrape.dublin_rows csv) n w)).
Proof.
  unfold Scrape.main.
  apply (static_fold fst
           (fun x => Scrape.harvest (Scrape.item_of w x) (portal x.1))
           (load_done out)).
  done.
Qed.

Lemma scrape_harvest_item it v :
  worker_id (Scrape.harvest it v) = item_worker_id it /\
  application_number (Scrape.harvest it v) = item_application_number it.
Proof.
  unfold Scrape.harvest. destruct (raised _); [done|].
  destruct (Scrape.page_has_no_records v); [done|].
  by destruct (Scrape.extract_all_pages_observations _).
Qed.

Lemma dublin_rows_elem csv i a :
  (i, a) ∈ Scrape.dublin_rows csv ->
  0 <= i /\ csv !! Z.to_nat i = Some a /\
  Scrape.planning_authority a = "Dublin City Council".
Proof.
  unfold Scrape.dublin_rows. rewrite list_elem_of_filter. intros [Hp Hin].
  apply list_elem_of_lookup in Hin as [k Hk].
  apply lookup_zip_with_Some in Hk as (i' & a' & [= <- <-] & Hi & Ha).
  apply lookup_seqZ in Hi as [-> _]. rewrite Z.add_0_l, Nat2Z.id.
  split; [lia|]. split; done.
Qed.

End WorkerFolds.

Section FirstRow.
Import Merge.

Lemma set_index_first_row rows k : set_index rows !! k = first_row rows k.
Proof.
  unfold set_index. induction rows as [|r rows IH]; [done|].
  cbn [fmap list_fmap list_to_map foldr first_row].
  change (foldr _ ∅ _) with (list_to_map ((λ r0 : Row, (row_index r0, r0)) <$> rows) : gmap Z Row).
  destruct (decide (row_index r = k)) as [<-|Hne].
  - apply lookup_insert_eq.
  - by rewrite lookup_insert_ne.
Qed.


Lemma first_row_NoDup rows r :
  NoDup (row_index <$> rows) -> r ∈ rows -> first_row rows (row_index r) = Some r.
Proof.
  induction rows as [|x rows IH]; [by intros _ ?%elem_of_nil|].
  rewrite fmap_cons, NoDup_cons. intros [Hx Hnd] Hin. cbn [first_row].
  apply elem_of_cons in Hin as [->|Hin]; [by rewrite decide_True|].
  rewrite decide_False; [by apply IH|].
  intros Heq. apply Hx. rewrite Heq. by apply list_elem_of_fmap_2.
Qed.

Lemma first_row_None rows k :
  first_row rows k = None <-> k ∉ (row_index <$> rows).
Proof.
  induction rows as [|x rows IH]; cbn [first_row].
  - split; [intros _; apply not_elem_of_nil | done].
  - rewrite fmap_cons, not_elem_of_cons. destruct (decide (row_index x = k)) as [<-|Hne].
    + split; [done | by intros [? _]].
    + rewrite IH. split; [by intros ?; split; [intros ->|] | by intros [_ ?]].
Qed.

Lemma files_fold_patch files : forall base,
  foldl (fun df (f : ledger_file) =>
           match f with
           | None => df
           | Some rows => foldl patch_urls df rows
           end) base files =
  foldl patch_urls base (concat (rows_of <$> files)).
Proof.
  induction files as [|[rows|] files IH]; intros base; simpl; [done|..].
  - by rewrite foldl_app, IH.
  - apply IH.
Qed.

End FirstRow.

Section JoinedText.
Import PyStr.

Lemma str_prefix_app p s t :
  String.prefix p s = true -> String.prefix p (s +:+ t) = true.
Proof.
  revert s. induction p as [|c p IH]; intros s; [by rewrite !str_prefix_nil_l|].
  destruct s as [|d s]; [done|]. rewrite append_cons.
  intros [-> Hp]%str_prefix_cons. cbn [String.prefix].
  destruct (ascii_dec d d); [by apply IH | done].
Qed.

Lemma contains_app_l p s t :
  contains p s = true -> contains p (s +:+ t) = true.
Proof.
  induction s as [|c s IH].
  - cbn [contains]. destruct (String.prefix p EmptyString) eqn:Hp; [|done].
    intros _. apply contains_prefix. by apply (str_prefix_app p EmptyString t).
  - cbn [contains]. destruct (String.prefix p (String c s)) eqn:Hp.
    + intros _. apply contains_prefix. by apply str_prefix_app.
    + intros H. rewrite append_cons. by apply contains_tail, IH.
Qed.

Lemma contains_app_r p s t :
  contains p t = true -> contains p (s +:+ t) = true.
Proof.
  intros H. induction s as [|c s IH]; [done|].
  rewrite append_cons. by apply contains_tail.
Qed.

Lemma contains_refl p : contains p p = true.
Proof. apply contains_prefix, prefix_refl. Qed.

Lemma contains_join_elem sep x parts :
  x ∈ parts -> contains x (join sep parts) = true.
Proof.
  induction parts as [|p parts IH]; [by intros ?%elem_of_nil|].
  intros Hin. unfold join in *. cbn [String.concat].
  destruct parts as [|q parts].
  - apply list_elem_of_singleton in Hin as ->. apply contains_refl.
  - apply elem_of_cons in Hin as [->|Hin].
    + apply contains_app_l, contains_refl.
    + apply contains_app_r, contains_app_r. by apply IH.
Qed.

Lemma clean_sentinel :
  all_chars (fun c => negb (is_space c) && negb (Ascii.eqb c ";")) DOWNLOAD_FAILED = true.
Proof. reflexivity. Qed.

Lemma imap_id_ext {A} (f : nat -> A -> A) (l : list A) :
  (forall i x, l !! i = Some x -> f i x = x) -> imap f l = l.
Proof.
  intros H. apply list_eq. intros i. rewrite list_lookup_imap.
  destruct (l !! i) as [x|] eqn:Hx; [|done]. simpl. by rewrite (H i x).
Qed.

Lemma set_observation_urls_id r : set_observation_urls r (observation_urls r) = r.
Proof. by destruct r. Qed.


End JoinedText.

Section HarvestClassified.
Import PyStr.

Variables (it : item) (v : visit).
Hypothesis Hnav : goto v 1%nat = None.
Hypothesis Hrec : Scrape.page_has_no_records v = false.
Hypothesis Hnext : first_raise (pages v) = None.
Hypothesis Hclean : forall x, Resolved x ∈ listing_icons (pages v) -> clean_locator x.
Hypothesis Hfail : Unresolved ∈ listing_icons (pages v).

Lemma harvest_row :
  Scrape.harvest it v =
  set_observations (blank_record it) (position_of <$> listing_icons (pages v)).
Proof.
  unfold Scrape.harvest, Scrape.navigate. cbn [raised]. rewrite Hnav, Hrec.
  unfold Scrape.extract_all_pages_observations.
  by rewrite scrape_crawl_positions, Hnext.
Qed.

Lemma urls_chars :
  Forall (fun u => u <> EmptyString /\
            all_chars (fun c => negb (is_space c) && negb (Ascii.eqb c ";")) u = true)
         (position_of <$> listing_icons (pages v)).
Proof.
  apply Forall_fmap, Forall_forall. intros [x|] Hx; simpl.
  - destruct (Hclean x Hx) as (? & _ & ?). done.
  - done.
Qed.

Lemma urls_failed : DOWNLOAD_FAILED ∈ position_of <$> listing_icons (pages v).
Proof. apply (list_elem_of_fmap_2 position_of _ _ Hfail). Qed.

Lemma urls_text_joined :
  strip (str_of_cell (join ";" (position_of <$> listing_icons (pages v)))) =
  join ";" (position_of <$> listing_icons (pages v)).
Proof.
  pose proof urls_chars as Hc. pose proof urls_failed as Hf.
  destruct (position_of <$> listing_icons (pages v)) as [|u us] eqn:E;
    [by apply elem_of_nil in Hf|].
  apply Forall_cons in Hc as Hu. destruct Hu as [[Hu _] _].
  unfold str_of_cell. rewrite decide_False by (by apply join_nonempty).
  apply strip_clean, all_chars_join; [done|].
  eapply Forall_impl; [exact Hc|]. intros p [_ Hp].
  eapply all_chars_impl; [|exact Hp]. intros c Hcc.
  apply andb_true_iff in Hcc as [? _]. done.
Qed.

Lemma urls_split :
  split ";" (join ";" (position_of <$> listing_icons (pages v))) =
  position_of <$> listing_icons (pages v).
Proof.
  pose proof urls_chars as Hc. pose proof urls_failed as Hf.
  apply split_join.
  - intros E. rewrite E in Hf. by apply elem_of_nil in Hf.
  - eapply Forall_impl; [exact Hc|]. intros p [_ Hp].
    apply (contains_none (fun c => negb (is_space c) && negb (Ascii.eqb c ";"))); done.
Qed.

Lemma harvest_classified :
  Classifier.collect [Some [Scrape.harvest it v]] =
    ([], [Classifier.download_failure_of (Scrape.harvest it v)]) /\
  RerunDownload.original_urls (Classifier.download_failure_of (Scrape.harvest it v)) =
    position_of <$> listing_icons (pages v) /\
  forall i : nat,
    Z.of_nat i ∈ RerunDownload.parse_failed_positions
      (Classifier.df_failed_positions
         (Classifier.download_failure_of (Scrape.harvest it v)))
    <-> listing_icons (pages v) !! i = Some Unresolved.
Proof.
  assert (Hurls : Classifier.urls_text (Scrape.harvest it v) =
                  join ";" (position_of <$> listing_icons (pages v))).
  { rewrite harvest_row. unfold Classifier.urls_text.
    cbn [set_observations observation_urls]. apply urls_text_joined. }
  assert (Hpage : Classifier.is_page_failure (Scrape.harvest it v) = false).
  { rewrite harvest_row. reflexivity. }
  assert (Hparts : Classifier.parts_of (Scrape.harvest it v) =
                   position_of <$> listing_icons (pages v)).
  { unfold Classifier.parts_of. rewrite Hurls. apply urls_split. }
  split; [|split].
  - unfold Classifier.collect. cbn [foldl]. unfold Classifier.step.
    rewrite Hpage, Hurls.
    rewrite (contains_join_elem ";" DOWNLOAD_FAILED _ urls_failed). done.
  - unfold RerunDownload.original_urls, RerunDownload.original_urls_str.
    cbn [Classifier.download_failure_of Classifier.df_observation_urls].
    rewrite Hurls, urls_text_joined. unfold positions_of.
    pose proof urls_split as Hs.
    destruct (join ";" (position_of <$> listing_icons (pages v))) eqn:E; [|done].
    pose proof urls_failed as Hf. rewrite <- Hs in Hf. cbn in Hf.
    apply list_elem_of_singleton in Hf. discriminate Hf.
  - intros i.
    cbn [Classifier.download_failure_of Classifier.df_failed_positions].
    rewrite failed_positions_read_back, elem_of_list_to_set, Hparts.
    rewrite list_elem_of_fmap. split.
    + intros (j & Hj & Hin). apply Nat2Z.inj in Hj as <-.
      apply failed_from_spec in Hin as (k & -> & Hk). simpl.
      rewrite list_lookup_fmap in Hk.
      destruct (listing_icons (pages v) !! k) as [[x|]|] eqn:Hi; [|done|done].
      simpl in Hk. injection Hk as Hk.
      destruct (Hclean x) as (_ & Hne & _); [|done].
      apply list_elem_of_lookup. by exists k.
    + intros Hi. exists i. split; [done|]. apply failed_from_spec.
      exists i. split; [done|]. by rewrite list_lookup_fmap, Hi.
Qed.

End HarvestClassified.

Section UrlFacts.
Import Url.

Lemma unquote_char c s :
  unquote_plus (quote_char c +:+ s) = String c (unquote_plus s).
Proof.
  destruct c as [[] [] [] [] [] [] [] []]; reflexivity.
Qed.

Lemma unquote_quote s : unquote_plus (quote_plus s) = s.
Proof.
  induction s as [|c s IH]; [done|]. cbn [quote_plus].
  by rewrite unquote_char, IH.
Qed.

Lemma str_append_inj_l p x y : p +:+ x = p +:+ y -> x = y.
Proof.
  induction p as [|c p IH]; [done|]. rewrite !append_cons. intros [= H]. auto.
Qed.

End UrlFacts.

Section Relaunch.

Lemma resumes_done items before after idx :
  resumes items before after -> idx ∈ items -> idx ∈ load_done after.
Proof.
  intros (appended & Hrows & _ & Hiff) Hin.
  rewrite load_done_labels. unfold labels. rewrite Hrows, fmap_app, elem_of_app.
  destruct (decide (idx ∈ load_done before)) as [Hd|Hd].
  - left. by apply load_done_labels.
  - right. by apply Hiff.
Qed.

Lemma scrape_skip worker portal done_rows (l : list (Z * Scrape.application)) out :
  (forall x, x ∈ l -> x.1 ∈ done_rows) ->
  foldl (Scrape.step worker portal done_rows) out l = out.
Proof.
  induction l as [|x l IH]; intros Hall; [done|]. cbn [foldl].
  unfold Scrape.step at 2. rewrite decide_True by (apply Hall; by left).
  apply IH. intros y Hy. apply Hall. by right.
Qed.

Lemma rerun_page_skip portal done (l : list Row) out :
  (forall r, r ∈ l -> row_index r ∈ done) ->
  foldl (RerunPage.step portal) (done, out) l = (done, out).
Proof.
  induction l as [|x l IH]; intros Hall; [done|]. cbn [foldl].
  unfold RerunPage.step at 2. cbn [fst]. rewrite decide_True by (apply Hall; by left).
  apply IH. intros y Hy. apply Hall. by right.
Qed.

Lemma rerun_download_skip portal done (l : list Classifier.DownloadFailure) out :
  (forall w, w ∈ l -> Classifier.df_row_index w ∈ done) ->
  foldl (RerunDownload.step portal) (done, out) l = (done, out).
Proof.
  induction l as [|x l IH]; intros Hall; [done|]. cbn [foldl].
  unfold RerunDownload.step at 2. cbn [fst]. rewrite decide_True by (apply Hall; by left).
  apply IH. intros y Hy. apply Hall. by right.
Qed.

End Relaunch.

Section Round2Runs.

Lemma attempt_length ty r v urls :
  length (Round2.attempt ty r v urls) = length urls.
Proof.
  unfold Round2.attempt. destruct (Round2.is_str _ _); [|done].
  destruct (goto v 1%nat); [done|].
  by destruct (retry_failed_untouched (Round2.first_page (pages v)) urls).
Qed.

Lemma attempt_unchanged ty r v urls :
  Round2.is_str (Round2.application_number_is_text ty) (application_number r) = false \/
  goto v 1%nat <> None \/ DOWNLOAD_FAILED ∉ urls ->
  Round2.attempt ty r v urls = urls.
Proof.
  intros H. unfold Round2.attempt.
  destruct (Round2.is_str _ _); [|done].
  destruct (goto v 1%nat) as [e|]; [done|].
  destruct H as [H|[H|H]]; [done..|].
  rewrite round2_retry_spec. apply imap_id_ext. intros i x Hx.
  rewrite decide_False; [done|]. intros ->. apply H.
  apply list_elem_of_lookup. by exists i.
Qed.

Lemma patch_none ty r v :
  Round2.patch ty r v = None <-> Round2.readable ty r = false.
Proof. unfold Round2.patch. by destruct (Round2.readable ty r). Qed.

Lemma patch_readable ty r v :
  Round2.readable ty r = true -> Round2.patch ty r v = Some (Round2.written ty r v).
Proof. unfold Round2.patch. by intros ->. Qed.

Lemma loop_spec ty portal rows : forall out,
  exists processed rest,
    rows = processed ++ rest /\
    Forall (fun r => Round2.readable ty r = true) processed /\
    match rest with
    | [] => True
    | r :: _ => Round2.readable ty r = false
    end /\
    Round2.completed (Round2.loop ty portal out rows) = bool_decide (rest = []) /\
    rows_of (Round2.ledger (Round2.loop ty portal out rows)) =
      rows_of out ++
      ((fun r => Round2.written ty r (portal (row_index r))) <$> processed).
Proof.
  induction rows as [|r rows IH]; intros out.
  - exists [], []. simpl. by rewrite app_nil_r.
  - cbn [Round2.loop]. destruct (Round2.readable ty r) eqn:Hr.
    + rewrite patch_readable by done.
      destruct (IH (append_record out (Round2.written ty r (portal (row_index r)))))
        as (processed & rest & -> & Hall & Hrest & Hdone & Hrows).
      exists (r :: processed), rest. split; [done|].
      split; [by constructor|]. split; [done|]. split; [done|].
      by rewrite Hrows, rows_of_append, fmap_cons, <- app_assoc.
    + rewrite (proj2 (patch_none ty r (portal (row_index r)))) by done.
      exists [], (r :: rows). simpl. by rewrite app_nil_r.
Qed.

Lemma loop_readable ty portal rows : forall out,
  Forall (fun r => Round2.readable ty r = true) rows ->
  Round2.completed (Round2.loop ty portal out rows) = true /\
  rows_of (Round2.ledger (Round2.loop ty portal out rows)) =
    rows_of out ++ ((fun r => Round2.written ty r (portal (row_index r))) <$> rows).
Proof.
  induction rows as [|r rows IH]; intros out Hall.
  - simpl. by rewrite app_nil_r.
  - apply Forall_cons in Hall as [Hr Hall]. cbn [Round2.loop].
    rewrite patch_readable by done.
    destruct (IH (append_record out (Round2.written ty r (portal (row_index r)))) Hall)
      as [Hdone Hrows].
    split; [done|]. by rewrite Hrows, rows_of_append, fmap_cons, <- app_assoc.
Qed.

Lemma iloc_Forall {A} (P : A -> Prop) a b (l : list A) :
  Forall P l -> Forall P (Partition.iloc a b l).
Proof.
  intros H. apply Forall_forall. intros x Hx.
  eapply Forall_forall; [exact H|].
  eapply elem_of_sublist; [exact Hx | apply iloc_sublist].
Qed.

End Round2Runs.

Section CleanTexts.
Import PyStr.

Lemma clean_text_read_back urls :
  urls <> [] ->
  Forall (fun u => u <> EmptyString /\
            all_chars (fun c => negb (is_space c) && negb (Ascii.eqb c ";")) u = true)
         urls ->
  positions_of (strip (str_of_cell (join ";" urls))) = urls.
Proof.
  intros Hne Hc. destruct urls as [|u us]; [done|].
  apply Forall_cons in Hc as Hu. destruct Hu as [[Hu _] _].
  unfold str_of_cell. rewrite decide_False by (by apply join_nonempty).
  rewrite strip_clean.
  - apply positions_read_back. eapply Forall_impl; [exact Hc|].
    intros p [Hp Hch]. split; [done|].
    by apply (contains_none (fun c => negb (is_space c) && negb (Ascii.eqb c ";"))).
  - apply all_chars_join; [done|].
    eapply Forall_impl; [exact Hc|]. intros p [_ Hp].
    eapply all_chars_impl; [|exact Hp]. intros c Hcc.
    apply andb_true_iff in Hcc as [? _]. done.
Qed.

End CleanTexts.

(* ================================================================== *)
(** * The claims *)

(** C1, as the code has it. When at least one worker file exists and the
    page-level retry ledger holds each [row_index] once: a [row_index] of
    the page-level retry ledger that no row of the download-level retry
    ledger carries is merged as the page-level retry row, every field; a
    [row_index] of the base that is absent from the page-level retry ledger
    and present in the download-level one keeps every field of the base row
    but [observation_urls], which is that of the last download-level row
    with the label. [n_observation_letters] is among the fields kept. *)
Theorem merge_overrides (workers : list (list Row)) (page_fix dl_fix : ledger_file) :
  workers <> [] -> NoDup (labels page_fix) ->
  exists merged, Merge.merge workers page_fix dl_fix = Some merged /\
    (forall r, r ∈ rows_of page_fix -> row_index r ∉ labels dl_fix ->
       merged !! row_index r = Some r) /\
    (forall idx b, Merge.base_frame workers !! idx = Some b ->
       idx ∉ labels page_fix -> idx ∈ labels dl_fix ->
       exists r p, merged !! idx = Some r /\
         p ∈ rows_of dl_fix /\ row_index p = idx /\
         last_patch (rows_of dl_fix) idx = Some (observation_urls p) /\
         observation_urls r = observation_urls p /\
         same_but_urls r b).
Proof.
  intros Hw Hnd.
  destruct (merge_lookup workers page_fix dl_fix Hw Hnd) as (merged & Hm & Hlook).
  exists merged. split; [done|]. split.
  - intros r Hr Hdl. rewrite Hlook.
    rewrite decide_True by (by apply list_elem_of_fmap_2).
    rewrite loc_unique by done. unfold patched.
    by rewrite last_patch_absent.
  - intros idx b Hb Hpage Hdl. rewrite Hlook, decide_False, Hb by done.
    destruct (last_patch_present _ _ Hdl) as (p & Hp & Hk & Hlast).
    exists (set_observation_urls b (observation_urls p)), p.
    unfold patched. rewrite Hlast. repeat split; done.
Qed.

Lemma merge_overrides_witness :
  exists merged, Merge.merge [[B5]] (Some [R1]) None = Some merged /\
    merged !! 5 = Some R1.
Proof.
  destruct (merge_overrides [[B5]] (Some [R1]) None) as (merged & Hm & Hpage & _).
  - discriminate.
  - apply NoDup_singleton.
  - exists merged. split; [exact Hm|].
    apply (Hpage R1); [apply list_elem_of_singleton; reflexivity | apply not_elem_of_nil].
Defined.

(** C1 fails as stated. With row 5 in the download-level retry ledger only,
    the merged row takes the [observation_urls] of the patch and keeps the
    count of the base row, not the count of the patch. With row 5 in both
    retry ledgers, the merged row is not the page-level retry row. *)
Lemma merge_overrides_counterexample :
  (Merge.merge [[B5]] None (Some [P5]) ≫= fun merged => merged !! 5) =
    Some (set_observation_urls B5 (observation_urls P5)) /\
  n_observation_letters (set_observation_urls B5 (observation_urls P5)) = 3 /\
  n_observation_letters P5 = 2 /\
  (Merge.merge [[R0]] (Some [R1]) (Some [R2]) ≫= fun merged => merged !! 5) <>
    Some R1.
Proof.
  split; [vm_compute; reflexivity|]. split; [reflexivity|]. split; [reflexivity|].
  vm_compute. discriminate.
Qed.

(** C2, as the code has it. In the harvest, in the page-level retry and in
    the download-level retry, a row written on the has-records branch
    (navigation went through, the summary region does not show the
    no-records text, the crawl returned [urls]) stores [len(urls)] as
    [n_observation_letters] and [";".join(urls)] as [observation_urls]; for
    the two full crawls the length is the number of icons of the listing,
    resolved or not, for the targeted retry it is the length of the input
    list. The sharded round 2 writes a row only for an input row whose
    positions it can read; the row written is the input row with its
    positions retried and joined again: the count is copied and the number
    of positions is kept, so the count is the number of positions of the
    row written exactly when it was that of the input row. *)
Theorem count_position_invariant (it : item) (w : Classifier.DownloadFailure)
    (r : Row) (v : visit) :
  (forall urls,
     raised (Scrape.navigate v) = None ->
     Scrape.page_has_no_records v = false ->
     Scrape.extract_all_pages_observations (pages v) = Returned urls ->
     records (Scrape.harvest it v) urls /\
     length urls = icon_count (pages v)) /\
  (forall urls,
     raised (RerunPage.safe_goto v) = None ->
     RerunPage.page_has_no_records v = false ->
     RerunPage.extract_all_pages_observations v = Returned urls ->
     records (RerunPage.harvest it v) urls /\
     length urls = icon_count (pages v)) /\
  (forall updated,
     RerunDownload.parse_failed_positions (Classifier.df_failed_positions w) <> ∅ ->
     len (RerunDownload.original_urls w) <> 0 ->
     raised (RerunPage.safe_goto v) = None ->
     RerunPage.page_has_no_records v = false ->
     RerunDownload.crawl_and_redownload_failed_positions v
       (RerunDownload.original_urls w)
       (RerunDownload.parse_failed_positions (Classifier.df_failed_positions w))
       = Returned updated ->
     records (RerunDownload.redownload w v) updated /\
     length updated = length (RerunDownload.original_urls w)) /\
  (forall ty r',
     Round2.patch ty r v = Some r' ->
     let urls := Round2.attempt ty r v (PyStr.split ";" (observation_urls r)) in
     r' = set_observation_urls r (PyStr.join ";" urls) /\
     length urls = length (PyStr.split ";" (observation_urls r)) /\
     n_observation_letters r' = n_observation_letters r /\
     (n_observation_letters r' = len urls <->
      n_observation_letters r = len (PyStr.split ";" (observation_urls r)))).
Proof.
  split; [|split; [|split]].
  - intros urls Hnav Hrec Hcrawl. unfold Scrape.harvest.
    rewrite Hnav, Hrec, Hcrawl. split; [apply records_set_observations|].
    by apply scrape_crawl_length in Hcrawl.
  - intros urls Hnav Hrec Hcrawl. unfold RerunPage.harvest.
    rewrite Hnav, Hrec, Hcrawl. split; [apply records_set_observations|].
    by apply rerun_crawl_length in Hcrawl.
  - intros updated Hfailed Hlen Hnav Hrec Hcrawl. unfold RerunDownload.redownload.
    rewrite decide_False by (intros [?|?]; done).
    rewrite Hnav, Hrec, Hcrawl. split; [apply records_set_observations|].
    unfold RerunDownload.crawl_and_redownload_failed_positions in Hcrawl.
    pose proof (crawl_retouched (obs_file_exists v)
      (RerunDownload.parse_failed_positions (Classifier.df_failed_positions w))
      (pages v) (RerunDownload.original_urls w) 0) as H.
    rewrite Hcrawl in H. apply H.
  - intros ty r' Hpatch urls. unfold Round2.patch in Hpatch.
    destruct (Round2.readable ty r); [|done]. injection Hpatch as <-.
    assert (Hlen : length urls = length (PyStr.split ";" (observation_urls r)))
      by apply attempt_length.
    split; [done|]. split; [done|]. split; [done|].
    cbn [Round2.written set_observation_urls n_observation_letters].
    unfold len. by rewrite Hlen.
Qed.

Lemma count_position_invariant_witness :
  records (Scrape.harvest sample_item visit_D)
          ["https://portal/doc/1"; DOWNLOAD_FAILED; "https://portal/doc/3"] /\
  length ["https://portal/doc/1"; DOWNLOAD_FAILED; "https://portal/doc/3"] =
    icon_count (pages visit_D).
Proof.
  destruct (count_position_invariant sample_item worklist_D row_D visit_D)
    as (Hscrape & _).
  apply Hscrape; reflexivity.
Defined.

(** C2 fails as stated for the sharded round 2. Row 5 is in the page-level
    retry ledger with one position and in the download-level retry ledger
    with two, one of them failed: the merge leaves the page-level row with
    the two positions of the patch and a count of 1; the selection of the
    next round keeps it; the sharded round 2, on a page whose icons
    resolve, writes a has-records row with a count of 1 and two
    positions. *)
Lemma count_position_invariant_counterexample :
  (Merge.merge [[R0]] (Some [R1]) (Some [R2f]) ≫= fun merged => merged !! 5) = Some M5 /\
  Remaining.select [M5] = [M5] /\
  Round2.main text_columns [M5] 1 0 (fun _ => visit_D_retry) None =
    Round2.mkRun (Some [M5_round2]) true /\
  no_record_found M5_round2 = 0 /\
  n_observation_letters M5_round2 = 1 /\
  PyStr.split ";" (observation_urls M5_round2) =
    ["https://portal/doc/8"; "https://portal/doc/2"] /\
  n_observation_letters M5_round2 <>
    len (PyStr.split ";" (observation_urls M5_round2)).
Proof.
  split; [vm_compute; reflexivity|]. split; [vm_compute; reflexivity|].
  split; [vm_compute; reflexivity|]. split; [reflexivity|]. split; [reflexivity|].
  split; [reflexivity|]. vm_compute. discriminate.
Qed.

(** C3, as the code has it. The harvest worker, the page-level retry and the
    download-level retry, run on a ledger file that already holds rows,
    leave those rows in place and append exactly one row for each
    [row_index] of their item set that the file does not hold, and no other
    row. The sharded round 2 looks at no row of its ledger file: whatever
    the file holds, it appends one row for each row of its shard, in order,
    up to the first row whose [observation_urls] cell is not text, where
    the script stops; it reaches the end of the shard exactly when there is
    no such row. *)
Theorem resume_appends_remaining (csv : list Scrape.application)
    (n_workers worker : Z) (page_worklist : ledger_file)
    (download_worklist : option (list Classifier.DownloadFailure))
    (portal : Z -> visit) (out : ledger_file) :
  resumes (Partition.df_chunk (Scrape.dublin_rows csv) n_workers worker).*1
          out (Scrape.main csv n_workers worker portal out) /\
  resumes (row_index <$>
             filter (fun r => RerunPage.matches_page_goto
                                (PyStr.str_of_cell (error r)) = true)
                    (rows_of page_worklist))
          out (RerunPage.main page_worklist portal out) /\
  resumes (Classifier.df_row_index <$> default [] download_worklist)
          out (RerunDownload.main download_worklist portal out) /\
  (forall ty input,
     0 <= worker < n_workers ->
     exists processed rest,
       Partition.df_chunk input n_workers worker = processed ++ rest /\
       Forall (fun r => Round2.readable ty r = true) processed /\
       match rest with
       | [] => True
       | r :: _ => Round2.readable ty r = false
       end /\
       Round2.completed (Round2.main ty input n_workers worker portal out) =
         bool_decide (rest = []) /\
       rows_of (Round2.ledger (Round2.main ty input n_workers worker portal out)) =
         rows_of out ++
         ((fun r => Round2.written ty r (portal (row_index r))) <$> processed)).
Proof.
  split; [apply scrape_resumes|].
  split; [apply rerun_page_resumes|].
  split; [apply rerun_download_resumes|].
  intros ty input _. apply loop_spec.
Qed.

(** C3 fails as stated for the sharded round 2: relaunched with the same
    arguments on the ledger file its first run wrote, the worker appends a
    second row for the [row_index] the file already holds. *)
Lemma round2_resume_counterexample :
  labels round2_first_run = [5] /\
  labels (Round2.ledger
            (Round2.main text_columns [B5] 1 0 (fun _ => visit_D) round2_first_run))
    = [5; 5] /\
  ~ resumes [5] round2_first_run
            (Round2.ledger
               (Round2.main text_columns [B5] 1 0 (fun _ => visit_D) round2_first_run)).
Proof.
  assert (Hlab : labels (Round2.ledger
                   (Round2.main text_columns [B5] 1 0 (fun _ => visit_D) round2_first_run))
                 = [5; 5]) by (vm_compute; reflexivity).
  split; [vm_compute; reflexivity|]. split; [exact Hlab|].
  intros (appended & Hrows & _ & Hiff).
  unfold labels in Hlab. rewrite Hrows, fmap_app in Hlab.
  injection Hlab as Hlab.
  assert (Hin : 5 ∈ (row_index <$> appended))
    by (rewrite Hlab; apply list_elem_of_singleton; reflexivity).
  apply Hiff in Hin as [_ Hnot]. apply Hnot.
  apply elem_of_list_to_set, list_elem_of_singleton. reflexivity.
Qed.

(** C4. The targeted retry of [crawl_and_redownload_failed_positions]
    either returns a list of the length of the input list that is equal to
    it at every index outside [failed_positions], the changed positions
    holding [EXISTS], [DOWNLOAD_FAILED] or the locator of an icon of the
    listing, or raises, which it does only when the next button of the
    portal raises. The retry of the sharded round 2, whose failed indices
    are the positions that hold [DOWNLOAD_FAILED], likewise keeps the length
    and every other position. *)
Theorem targeted_refetch_frame (v : visit) (original_urls : list string)
    (failed_positions : gset Z) (icons : list resolution) :
  match RerunDownload.crawl_and_redownload_failed_positions
          v original_urls failed_positions with
  | Returned updated =>
      length updated = length original_urls /\
      (forall i, Z.of_nat i ∉ failed_positions ->
                 updated !! i = original_urls !! i) /\
      (forall i x, updated !! i = Some x -> original_urls !! i <> Some x ->
                   Z.of_nat i ∈ failed_positions /\
                   (x = EXISTS \/ x = DOWNLOAD_FAILED \/
                    Resolved x ∈ listing_icons (pages v)))
  | Raised _ => next_never_raises (pages v) = false
  end /\
  length (Round2.retry_failed icons original_urls) = length original_urls /\
  (forall i, original_urls !! i <> Some DOWNLOAD_FAILED ->
             Round2.retry_failed icons original_urls !! i = original_urls !! i).
Proof.
  split; [|apply retry_failed_untouched].
  unfold RerunDownload.crawl_and_redownload_failed_positions.
  pose proof (crawl_retouched (obs_file_exists v) failed_positions (pages v)
                original_urls 0) as H.
  destruct (RerunDownload.crawl _ _ _ _ _) as [updated|e]; [|done].
  split; [apply H|]. split.
  - intros i Hi. by eapply retouched_frame.
  - intros i x Hx Hne. destruct H as [_ H].
    destruct (H i x Hx) as [?|?]; done.
Qed.

Lemma targeted_refetch_frame_witness :
  RerunDownload.crawl_and_redownload_failed_positions visit_D_retry
    ["https://portal/doc/1"; DOWNLOAD_FAILED; "https://portal/doc/3"] {[1]} =
  Returned ["https://portal/doc/1"; "https://portal/doc/2"; "https://portal/doc/3"] /\
  length ["https://portal/doc/1"; "https://portal/doc/2"; "https://portal/doc/3"] =
  length ["https://portal/doc/1"; DOWNLOAD_FAILED; "https://portal/doc/3"].
Proof.
  pose proof (targeted_refetch_frame visit_D_retry
    ["https://portal/doc/1"; DOWNLOAD_FAILED; "https://portal/doc/3"] {[1]} [])
    as [H _].
  assert (E : RerunDownload.crawl_and_redownload_failed_positions visit_D_retry
    ["https://portal/doc/1"; DOWNLOAD_FAILED; "https://portal/doc/3"] {[1]} =
    Returned ["https://portal/doc/1"; "https://portal/doc/2"; "https://portal/doc/3"])
    by (vm_compute; reflexivity).
  rewrite E in H. split; [exact E | apply H].
Defined.

(** C5. For a frame of [T] rows, [N] workers and a worker id
    [0 <= w < N]: the shard is [[w * (T // N), T)] for the last worker and
    [[w * (T // N), (w + 1) * (T // N))] otherwise; it lies inside
    [[0, T)]; the shards of two different workers share no index; every
    index of [[0, T)] lies in the shard of some worker; [df_chunk] holds the
    rows of the frame at the indices of the shard, in order, and the shards
    of workers [0 .. N-1] put end to end are the frame. The shard is a
    function of [(T, N, w)]. *)
Theorem partition_complete {A : Type} (df : list A) (T N w : Z) :
  Z.of_nat (length df) = T -> 0 <= w < N ->
  Partition.start T N w = w * (T / N) /\
  Partition.stop T N w = (if decide (w = N - 1) then T else (w + 1) * (T / N)) /\
  (0 <= Partition.start T N w <= Partition.stop T N w /\ Partition.stop T N w <= T) /\
  (forall w' i, 0 <= w' < N -> w' <> w ->
     Partition.start T N w <= i < Partition.stop T N w ->
     ~ (Partition.start T N w' <= i < Partition.stop T N w')) /\
  (forall i, 0 <= i < T ->
     exists v, 0 <= v < N /\ Partition.start T N v <= i < Partition.stop T N v) /\
  (forall k : nat,
     Partition.df_chunk df N w !! k =
     if decide (Z.of_nat k < Partition.stop T N w - Partition.start T N w)
     then df !! (Z.to_nat (Partition.start T N w) + k)%nat else None) /\
  concat ((fun v => Partition.df_chunk df N v) <$> seqZ 0 N) = df.
Proof.
  intros HT Hw. assert (0 <= T) by lia.
  destruct (shard_in_range T N w) as [Hr1 Hr2]; [lia..|].
  split; [reflexivity|]. split; [reflexivity|]. split; [done|]. split; [|split; [|split]].
  - intros w' i Hw' Hne Hin Hin'.
    destruct (Z.lt_total w w') as [Hlt | [Heq | Hgt]]; [| lia |].
    + pose proof (shards_ordered T N w w'). lia.
    + pose proof (shards_ordered T N w' w). lia.
  - intros i Hi. apply shard_cover; lia.
  - intros k. unfold Partition.df_chunk. rewrite HT. apply iloc_lookup; lia.
  - apply shards_concat. lia.
Qed.

Lemma partition_complete_witness :
  Partition.start 10 3 2 = 2 * (10 / 3) /\
  Partition.stop 10 3 2 = 10 /\
  concat ((fun v => Partition.df_chunk (seqZ 0 10) 3 v) <$> seqZ 0 3) = seqZ 0 10.
Proof.
  destruct (partition_complete (seqZ 0 10) 10 3 2) as (Hs & He & _ & _ & _ & _ & Hc);
    [reflexivity | lia |].
  split; [exact Hs|]. split; [exact He | exact Hc].
Defined.

(** C6, as the code has it. Over the rows of the worker files that exist:
    the page list holds the rows whose error text contains [Page.goto], in
    order; the download list holds one entry for each other row whose
    [observation_urls] contains [DOWNLOAD_FAILED]; a row that is not a page
    failure and has a position equal to [DOWNLOAD_FAILED] is such a row; the
    failed indices of an entry are exactly the positions equal to
    [DOWNLOAD_FAILED]; no row is put on both lists. *)
Theorem classification (worker_files : list ledger_file) :
  let rows := concat (rows_of <$> worker_files) in
  Classifier.collect worker_files =
    (filter (fun r => Classifier.is_page_failure r = true) rows,
     Classifier.download_failure_of <$>
       filter (fun r => Classifier.is_download_failure r = true) rows) /\
  (forall r, Classifier.is_page_failure r = true <->
             PyStr.contains "Page.goto" (Classifier.error_text r) = true) /\
  (forall r, Classifier.is_page_failure r = false ->
             DOWNLOAD_FAILED ∈ Classifier.parts_of r ->
             Classifier.is_download_failure r = true) /\
  (forall r i, i ∈ Classifier.failed_from 0 (Classifier.parts_of r) <->
               Classifier.parts_of r !! i = Some DOWNLOAD_FAILED) /\
  (forall r, ~ (Classifier.is_page_failure r = true /\
                Classifier.is_download_failure r = true)).
Proof.
  intros rows. split; [|split; [|split; [|split]]].
  - unfold Classifier.collect. by rewrite collect_fold.
  - apply page_failure_iff.
  - intros r Hp Hin. unfold Classifier.is_download_failure. rewrite Hp. simpl.
    by apply split_part_contained in Hin.
  - intros r i. rewrite failed_from_spec. split.
    + by intros (j & -> & Hj).
    + intros Hi. by exists i.
  - intros r [Hp Hd]. unfold Classifier.is_download_failure in Hd.
    rewrite Hp in Hd. done.
Qed.

Lemma classification_witness :
  Classifier.is_download_failure row_D = true /\
  Classifier.df_failed_positions (Classifier.download_failure_of row_D) = "1".
Proof.
  destruct (classification [Some [row_D]]) as (_ & _ & Hdl & _).
  split; [|reflexivity].
  apply Hdl; [reflexivity|].
  apply list_elem_of_lookup. exists 1%nat. reflexivity.
Defined.

(** C6 fails as stated: a row whose error is not empty and does not name
    [Page.goto] is put on neither list. *)
Lemma classification_counterexample :
  error click_timeout_row <> EmptyString /\
  Classifier.collect [Some [click_timeout_row]] = ([], []).
Proof. split; [discriminate | vm_compute; reflexivity]. Qed.

(** C7, evaluated where the code departs from it. Row 5 is in the base, in
    the page-level retry ledger and in the download-level retry ledger: the
    merged row is the page-level retry row with the [observation_urls] of
    the download-level row, which is not the page-level retry row. *)
Theorem page_fix_patched_by_dl_fix :
  (Merge.merge [[R0]] (Some [R1]) (Some [R2]) ≫= fun merged => merged !! 5) =
    Some (set_observation_urls R1 (observation_urls R2)) /\
  set_observation_urls R1 (observation_urls R2) <> R1.
Proof. split; [vm_compute; reflexivity | discriminate]. Qed.

(** C8, as the code has it. The page-level retry makes at most
    [GOTO_ATTEMPTS = 3] calls of [page.goto] and sleeps
    [BACKOFF_BASE_S * attempt] seconds after a failed attempt that is not
    the last, 6 then 12; the navigation ends as its last call does. When the
    three calls raise, the row written carries the third error, a count of
    0 and no position, and the loop goes on: every listed row not yet
    written gets its row. The harvest worker calls [page.goto] once and
    does not sleep; when that call raises, the row written carries its
    error, a count of 0 and no position. *)
Theorem navigation_failure_recorded (it : item) (v : visit) (e1 e2 e3 : string)
    (worklist : ledger_file) (portal : Z -> visit) (out : ledger_file) :
  goto v 1%nat = Some e1 -> goto v 2%nat = Some e2 -> goto v 3%nat = Some e3 ->
  RerunPage.safe_goto v = mkNavigation 3 [6; 12] (Some e3) /\
  RerunPage.harvest it v = set_error (blank_record it) e3 /\
  Scrape.navigate v = mkNavigation 1 [] (Some e1) /\
  Scrape.harvest it v = set_error (blank_record it) e1 /\
  (forall v', let nav := RerunPage.safe_goto v' in
     (1 <= attempts_made nav <= RerunPage.GOTO_ATTEMPTS)%nat /\
     sleeps nav =
       (fun attempt => RerunPage.BACKOFF_BASE_S * Z.of_nat attempt) <$>
         seq 1 (attempts_made nav - 1) /\
     raised nav = goto v' (attempts_made nav)) /\
  resumes (row_index <$>
             filter (fun r => RerunPage.matches_page_goto
                                (PyStr.str_of_cell (error r)) = true)
                    (rows_of worklist))
          out (RerunPage.main worklist portal out).
Proof.
  intros H1 H2 H3.
  pose proof (safe_goto_cases v) as Hnav. simpl in Hnav. rewrite H1, H2, H3 in Hnav.
  split; [done|]. split.
  { unfold RerunPage.harvest. by rewrite Hnav. }
  split; [unfold Scrape.navigate; by rewrite H1|]. split.
  { unfold Scrape.harvest, Scrape.navigate. simpl. by rewrite H1. }
  split; [apply safe_goto_backoff | apply rerun_page_resumes].
Qed.

Lemma navigation_failure_recorded_witness :
  RerunPage.safe_goto unreachable_visit = mkNavigation 3 [6; 12] (Some goto_timeout) /\
  RerunPage.harvest sample_item unreachable_visit =
    set_error (blank_record sample_item) goto_timeout.
Proof.
  destruct (navigation_failure_recorded sample_item unreachable_visit
              goto_timeout goto_timeout goto_timeout None
              (fun _ => unreachable_visit) None) as (Hnav & Hrow & _);
    [reflexivity..|].
  split; [exact Hnav | exact Hrow].
Defined.

(** C8 fails as stated for the harvest worker: on a portal whose first
    navigation times out and whose second one would get through, it makes
    one call, does not sleep and writes the error row; the page-level retry
    gets through on the same portal. *)
Lemma navigation_failure_recorded_counterexample :
  goto flaky_visit 1%nat = Some goto_timeout /\
  goto flaky_visit 2%nat = None /\
  Scrape.navigate flaky_visit = mkNavigation 1 [] (Some goto_timeout) /\
  error (Scrape.harvest sample_item flaky_visit) = goto_timeout /\
  RerunPage.safe_goto flaky_visit = mkNavigation 2 [6] None /\
  error (RerunPage.harvest sample_item flaky_visit) = EmptyString.
Proof. repeat split. Qed.

(** C9, evaluated where the code departs from it. The worker reads the
    summary region once: it reports no records exactly when that one read
    holds the no-records text. On a page whose summary shows the text on
    the first read and not on the second, the worker writes the no-records
    row, while the test of [0.tester.py], which reads twice, answers
    false. *)
Theorem no_records_single_read (v : visit) :
  (Scrape.page_has_no_records v = true <->
   exists reads text, summary v = Some reads /\ reads 1%nat = Some text /\
                      PyStr.contains NO_RECORDS_MARKER text = true) /\
  (exists reads second, summary racing_visit = Some reads /\
     reads 2%nat = Some second /\
     PyStr.contains NO_RECORDS_MARKER second = false) /\
  Scrape.page_has_no_records racing_visit = true /\
  Scrape.harvest sample_item racing_visit =
    set_no_record_found (blank_record sample_item) /\
  Tester.page_has_no_records racing_visit = false.
Proof.
  split; [apply no_records_iff|]. split; [|repeat split].
  eexists _, _. split; [reflexivity|]. split; reflexivity.
Qed.

(** C10. When at least one worker file exists and the page-level retry
    ledger holds each [row_index] once, the labels of the merged frame are
    those of the rows of the worker files and those of the page-level retry
    ledger; a label that only the download-level retry ledger carries has
    no row in the merged frame. *)
Theorem merged_keys (workers : list (list Row)) (page_fix dl_fix : ledger_file) :
  workers <> [] -> NoDup (labels page_fix) ->
  exists merged, Merge.merge workers page_fix dl_fix = Some merged /\
    dom merged =
      list_to_set (row_index <$> concat workers) ∪ list_to_set (labels page_fix) /\
    (forall r, r ∈ rows_of page_fix -> row_index r ∉ (row_index <$> concat workers) ->
       is_Some (merged !! row_index r)) /\
    (forall idx, idx ∈ labels dl_fix ->
       idx ∉ (row_index <$> concat workers) -> idx ∉ labels page_fix ->
       merged !! idx = None).
Proof.
  intros Hw Hnd.
  destruct (merge_lookup workers page_fix dl_fix Hw Hnd) as (merged & Hm & Hlook).
  exists merged. split; [done|].
  assert (Hdom : forall k, k ∈ dom merged <->
            k ∈ (row_index <$> concat workers) \/ k ∈ labels page_fix).
  { intros k. rewrite elem_of_dom, Hlook, fmap_is_Some.
    destruct (decide (k ∈ labels page_fix)) as [Hin|Hout].
    - apply list_elem_of_fmap in Hin as Hin'. destruct Hin' as (r & -> & Hr).
      rewrite loc_unique by done. split; [by right | by eauto].
    - rewrite <- elem_of_dom, base_frame_dom, elem_of_list_to_set. tauto. }
  split; [|split].
  - apply set_eq. intros k. rewrite Hdom, elem_of_union, !elem_of_list_to_set. done.
  - intros r Hr _. apply elem_of_dom, Hdom. right. by apply list_elem_of_fmap_2.
  - intros idx _ Hbase Hpage. apply not_elem_of_dom. rewrite Hdom. tauto.
Qed.

Lemma merged_keys_witness :
  exists merged, Merge.merge [[B5]] (Some [row_D]) (Some [click_timeout_row]) = Some merged /\
    dom merged = list_to_set [5] ∪ list_to_set [7].
Proof.
  destruct (merged_keys [[B5]] (Some [row_D]) (Some [click_timeout_row]))
    as (merged & Hm & Hdom & _).
  - discriminate.
  - apply NoDup_singleton.
  - exists merged. split; [exact Hm | exact Hdom].
Defined.

(* ================================================================== *)
(** * Further properties *)

(** ** Text of the ledger cells *)


(** X2. The download-level retry reads the [observation_urls] cell of a
    work item through [str(...).strip()] and a split on [";"]. A list that
    is not empty and whose entries are not empty and hold no white space
    and no semicolon, joined with [";"] as the passes write it, is read
    back as the same list, and the count of the row the retry starts from
    is its length. An empty cell is not read back as the empty list: it is
    NaN, and the retry reads the single position ["nan"]. *)
Theorem position_list_round_trip (w : Classifier.DownloadFailure)
    (urls : list string) :
  (urls <> [] ->
   Forall (fun u => u <> EmptyString /\
             all_chars (fun c => negb (PyStr.is_space c) && negb (Ascii.eqb c ";")) u
             = true) urls ->
   Classifier.df_observation_urls w = PyStr.join ";" urls ->
   RerunDownload.original_urls w = urls /\
   n_observation_letters (RerunDownload.initial_record w) = len urls) /\
  (Classifier.df_observation_urls w = EmptyString ->
   RerunDownload.original_urls w = ["nan"]).
Proof.
  split.
  - intros Hne Hclean Hcell.
    assert (E : RerunDownload.original_urls w = urls).
    { unfold RerunDownload.original_urls, RerunDownload.original_urls_str.
      rewrite Hcell. by apply clean_text_read_back. }
    split; [done|]. cbn [RerunDownload.initial_record n_observation_letters].
    by rewrite E.
  - intros Hcell.
    unfold RerunDownload.original_urls, RerunDownload.original_urls_str.
    rewrite Hcell. reflexivity.
Qed.

Lemma position_list_round_trip_witness :
  RerunDownload.original_urls worklist_D =
    ["https://portal/doc/1"; DOWNLOAD_FAILED; "https://portal/doc/3"] /\
  n_observation_letters (RerunDownload.initial_record worklist_D) = 3.
Proof.
  destruct (position_list_round_trip worklist_D
              ["https://portal/doc/1"; DOWNLOAD_FAILED; "https://portal/doc/3"])
    as [Hread _].
  apply Hread; [discriminate | | reflexivity].
  repeat constructor; discriminate.
Defined.

(** X3. The [failed_positions] text the classifier writes for a row is
    parsed by the targeted retry into exactly the indices at which the
    position list of the row holds [DOWNLOAD_FAILED]. *)
Theorem classified_positions_parsed (r : Row) (i : Z) :
  i ∈ RerunDownload.parse_failed_positions
        (Classifier.df_failed_positions (Classifier.download_failure_of r)) <->
  0 <= i /\ Classifier.parts_of r !! Z.to_nat i = Some DOWNLOAD_FAILED.
Proof.
  cbn [Classifier.download_failure_of Classifier.df_failed_positions].
  rewrite failed_positions_read_back, elem_of_list_to_set, list_elem_of_fmap.
  split.
  - intros (j & -> & Hin). apply failed_from_spec in Hin as (k & -> & Hk).
    rewrite Nat2Z.id. split; [lia | done].
  - intros [Hi Hk]. exists (Z.to_nat i). split; [lia|].
    apply failed_from_spec. by exists (Z.to_nat i).
Qed.

(** X4. [build_search_url] sends two application numbers to the same URL
    exactly when they are equal after [strip]: the percent-encoding of the
    query loses nothing. *)
Theorem search_url_injective (a b : string) :
  Url.build_search_url a = Url.build_search_url b <-> PyStr.strip a = PyStr.strip b.
Proof.
  split; [|by unfold Url.build_search_url; intros ->].
  unfold Url.build_search_url.
  intros H. do 3 apply str_append_inj_l in H.
  by rewrite <- (unquote_quote (PyStr.strip a)), H, unquote_quote.
Qed.

(** ** The crawls *)

(** X5. The crawl of the harvest raises the exception of the first next
    button that raises; otherwise it returns one position for each icon of
    the listing, page after page in document order: the locator of the icon
    when it resolves, [DOWNLOAD_FAILED] when it does not. *)
Theorem harvest_crawl_positions (l : listing) :
  Scrape.extract_all_pages_observations l =
  match first_raise l with
  | Some exn => Raised exn
  | None => Returned (position_of <$> listing_icons l)
  end.
Proof.
  unfold Scrape.extract_all_pages_observations. by rewrite scrape_crawl_positions.
Qed.

(** X6. The crawl of the page-level retry raises the exception of the first
    next button that raises; otherwise position [i] of the list it returns
    is [EXISTS] when the file [<app>_obs_<i+1>.pdf] is on disk, and when it
    is not, the locator of icon [i] when the icon resolves and
    [DOWNLOAD_FAILED] when it does not. *)
Theorem page_retry_crawl_positions (v : visit) :
  RerunPage.extract_all_pages_observations v =
  match first_raise (pages v) with
  | Some exn => Raised exn
  | None =>
      Returned (imap (position_on_disk (obs_file_exists v)) (listing_icons (pages v)))
  end.
Proof.
  unfold RerunPage.extract_all_pages_observations. by rewrite rerun_crawl_positions.
Qed.

(** X8. When the targeted retry returns, position [i] of its result is, if
    [i] is a failed position and the listing has an icon number [i],
    [EXISTS] when the file of the position is on disk and otherwise the
    locator of that icon or [DOWNLOAD_FAILED]; every other position is the
    one of the input list. When it raises, the exception is that of the
    first next button that raises. *)
Theorem targeted_retry_result (v : visit) (original_urls : list string)
    (failed_positions : gset Z) :
  match RerunDownload.crawl_and_redownload_failed_positions
          v original_urls failed_positions with
  | Returned updated =>
      updated = retried_from (obs_file_exists v) failed_positions 0
                  (listing_icons (pages v)) original_urls
  | Raised exn => first_raise (pages v) = Some exn
  end.
Proof.
  unfold RerunDownload.crawl_and_redownload_failed_positions.
  apply retry_crawl_spec.
Qed.

(** X9. When the first page of the listing shows more icons than the row
    has positions, the targeted retry returns from inside the icon loop: the
    later pages are not visited and a next button that raises is never
    reached. *)
Theorem targeted_retry_stops_early (v : visit) (original_urls : list string)
    (failed_positions : gset Z) :
  (length original_urls < length (Round2.first_page (pages v)))%nat ->
  RerunDownload.crawl_and_redownload_failed_positions
    v original_urls failed_positions =
  Returned (retried_from (obs_file_exists v) failed_positions 0
              (Round2.first_page (pages v)) original_urls).
Proof.
  intros Hlen. unfold RerunDownload.crawl_and_redownload_failed_positions.
  destruct (pages v) as [icons|icons rest|icons e]; cbn [Round2.first_page] in *;
    cbn [RerunDownload.crawl];
    destruct (retry_icons_returns (obs_file_exists v) failed_positions icons
                original_urls 0 ltac:(lia) ltac:(lia)) as [u Hu];
    pose proof (retry_icons_spec (obs_file_exists v) failed_positions icons
                  original_urls 0) as Hspec;
    rewrite Hu in *; destruct Hspec as [-> _]; done.
Qed.

Lemma targeted_retry_stops_early_witness :
  RerunDownload.crawl_and_redownload_failed_positions
    crowded_visit [DOWNLOAD_FAILED] {[0]} =
  Returned ["https://portal/doc/1"].
Proof.
  rewrite (targeted_retry_stops_early crowded_visit [DOWNLOAD_FAILED] {[0]})
    by (simpl; lia).
  vm_compute. reflexivity.
Defined.

(** ** The retry passes *)

(** X10. Whatever the portal does, the row the download-level retry writes
    carries the label and the worker of its work item, and either keeps the
    [observation_urls] text and the count of the work item (write-through,
    navigation error, no-records page, crawl error) or stores a list of the
    same length as the original one, with no error and [no_record_found]
    0. The count is the original length on every path. *)
Theorem redownload_keeps_count (w : Classifier.DownloadFailure) (v : visit) :
  let r := RerunDownload.redownload w v in
  row_index r = Classifier.df_row_index w /\
  worker_id r = Classifier.df_worker_id w /\
  n_observation_letters r = len (RerunDownload.original_urls w) /\
  (observation_urls r = RerunDownload.original_urls_str w \/
   exists updated,
     RerunDownload.crawl_and_redownload_failed_positions v
       (RerunDownload.original_urls w)
       (RerunDownload.parse_failed_positions (Classifier.df_failed_positions w))
       = Returned updated /\
     length updated = length (RerunDownload.original_urls w) /\
     observation_urls r = PyStr.join ";" updated /\
     error r = EmptyString /\ no_record_found r = 0).
Proof.
  cbv zeta. unfold RerunDownload.redownload.
  case_decide; [by auto|].
  destruct (raised (RerunPage.safe_goto v)); [by auto|].
  destruct (RerunPage.page_has_no_records v); [by auto|].
  unfold RerunDownload.crawl_and_redownload_failed_positions.
  pose proof (crawl_retouched (obs_file_exists v)
    (RerunDownload.parse_failed_positions (Classifier.df_failed_positions w))
    (pages v) (RerunDownload.original_urls w) 0) as Hc.
  destruct (RerunDownload.crawl _ _ _ _ _) as [updated|e]; [|by auto].
  destruct Hc as [Hlen _]. simpl. unfold len. rewrite Hlen.
  split; [done|]. split; [done|]. split; [done|]. right. by exists updated.
Qed.

(** X11. [safe_goto] stops at the first call of [page.goto] that returns:
    every call before the last one made raised; it succeeds exactly when one
    of the first [GOTO_ATTEMPTS] calls returns; when it raises, all
    [GOTO_ATTEMPTS] calls were made and the exception is that of the last
    one. *)
Theorem safe_goto_first_success (v : visit) :
  let nav := RerunPage.safe_goto v in
  (forall k, (1 <= k < attempts_made nav)%nat -> goto v k <> None) /\
  (raised nav = None <->
   exists k, (1 <= k <= RerunPage.GOTO_ATTEMPTS)%nat /\ goto v k = None) /\
  (forall e, raised nav = Some e ->
     attempts_made nav = RerunPage.GOTO_ATTEMPTS /\
     goto v RerunPage.GOTO_ATTEMPTS = Some e).
Proof.
  pose proof (safe_goto_cases v) as H. cbv zeta in *.
  unfold RerunPage.GOTO_ATTEMPTS.
  destruct (goto v 1%nat) as [e1|] eqn:E1;
    [destruct (goto v 2%nat) as [e2|] eqn:E2;
       [destruct (goto v 3%nat) as [e3|] eqn:E3|]|];
    rewrite H; cbn [attempts_made raised].
  - split; [|split].
    + intros k Hk. assert (k = 1 \/ k = 2)%nat as [->| ->] by lia; congruence.
    + split; [done|]. intros (k & Hk & Hg).
      assert (k = 1 \/ k = 2 \/ k = 3)%nat as [->|[->| ->]] by lia; congruence.
    + intros e [= <-]. done.
  - split; [|split].
    + intros k Hk. assert (k = 1 \/ k = 2)%nat as [->| ->] by lia; congruence.
    + split; [|done]. intros _. exists 3%nat. split; [lia | done].
    + done.
  - split; [|split].
    + intros k Hk. assert (k = 1)%nat as -> by lia. congruence.
    + split; [|done]. intros _. exists 2%nat. split; [lia | done].
    + done.
  - split; [|split].
    + intros k Hk. lia.
    + split; [|done]. intros _. exists 1%nat. split; [lia | done].
    + done.
Qed.

(** X12. The sharded round 2 writes nothing for a row whose
    [observation_urls] cell is not text (an empty cell, a column of
    numbers): the split raises outside the [try] and the script stops. For
    a row whose positions it can read, it writes the input row back with
    every column unchanged when the application number is not text (the
    URL cannot be built and nothing is visited), when the navigation
    raises, and when no position is equal to [DOWNLOAD_FAILED]. *)
Theorem round2_patch_unchanged (ty : Round2.dtypes) (r : Row) (v : visit) :
  (Round2.patch ty r v = None <-> Round2.readable ty r = false) /\
  (Round2.readable ty r = true ->
   Round2.is_str (Round2.application_number_is_text ty) (application_number r) = false \/
   goto v 1%nat <> None \/
   DOWNLOAD_FAILED ∉ PyStr.split ";" (observation_urls r) ->
   Round2.patch ty r v = Some r).
Proof.
  split; [apply patch_none|]. intros Hr H.
  rewrite patch_readable by done. unfold Round2.written.
  rewrite attempt_unchanged by done.
  by rewrite (join_split ";"%char), set_observation_urls_id.
Qed.

Lemma round2_patch_unchanged_witness :
  Round2.patch text_columns B5 unreachable_visit = Some B5 /\
  Round2.patch numeric_application_numbers row_D visit_D_retry = Some row_D /\
  Round2.patch text_columns E9 visit_D_retry = None.
Proof.
  split; [|split].
  - apply (round2_patch_unchanged text_columns B5 unreachable_visit);
      [reflexivity | right; left; discriminate].
  - apply (round2_patch_unchanged numeric_application_numbers row_D visit_D_retry);
      [reflexivity | left; reflexivity].
  - apply (round2_patch_unchanged text_columns E9 visit_D_retry). reflexivity.
Defined.

(** X13. For a row whose positions it can read and whose application
    number is text, when the navigation goes through, the sharded round 2
    changes the [observation_urls] of the row only: position [i] takes the
    locator of icon [i] of the first page when it holds [DOWNLOAD_FAILED]
    and that icon resolves, and is kept otherwise, also when the page has
    no icon number [i]. *)
Theorem round2_patch_result (ty : Round2.dtypes) (r : Row) (v : visit) :
  Round2.readable ty r = true ->
  Round2.is_str (Round2.application_number_is_text ty) (application_number r) = true ->
  goto v 1%nat = None ->
  Round2.patch ty r v =
  Some (set_observation_urls r
          (PyStr.join ";" (round2_retried (Round2.first_page (pages v))
                             (PyStr.split ";" (observation_urls r))))).
Proof.
  intros Hr Happ Hnav. rewrite patch_readable by done.
  unfold Round2.written, Round2.attempt. by rewrite Happ, Hnav, round2_retry_spec.
Qed.

Lemma round2_patch_result_witness :
  Round2.patch text_columns B5 visit_D_retry =
  Some (set_observation_urls B5
          "https://portal/doc/1;https://portal/doc/2;https://portal/doc/3").
Proof.
  rewrite (round2_patch_result text_columns B5 visit_D_retry); reflexivity.
Defined.

(** ** From one script to the next *)

(** X14. A harvest whose crawl returned with at least one icon unresolved,
    on a listing whose locators are clean, is put by the classifier on the
    download list and not on the page list; the retry reads from that entry
    the positions the harvest wrote, and the failed positions it parses are
    exactly the indices of the icons that did not resolve. *)
Theorem harvest_failures_reach_retry (it : item) (v : visit) :
  goto v 1%nat = None ->
  Scrape.page_has_no_records v = false ->
  first_raise (pages v) = None ->
  (forall x, Resolved x ∈ listing_icons (pages v) -> clean_locator x) ->
  Unresolved ∈ listing_icons (pages v) ->
  let w := Classifier.download_failure_of (Scrape.harvest it v) in
  Classifier.collect [Some [Scrape.harvest it v]] = ([], [w]) /\
  RerunDownload.original_urls w = position_of <$> listing_icons (pages v) /\
  forall i : nat,
    Z.of_nat i ∈ RerunDownload.parse_failed_positions (Classifier.df_failed_positions w)
    <-> listing_icons (pages v) !! i = Some Unresolved.
Proof. intros. by apply harvest_classified. Qed.

Lemma harvest_failures_reach_retry_witness :
  Classifier.collect [Some [Scrape.harvest sample_item visit_D]] =
    ([], [Classifier.download_failure_of (Scrape.harvest sample_item visit_D)]).
Proof.
  apply (harvest_failures_reach_retry sample_item visit_D).
  - reflexivity.
  - reflexivity.
  - reflexivity.
  - intros x Hx. cbn in Hx.
    apply elem_of_cons in Hx as [[= ->]|Hx]; [by vm_compute|].
    apply elem_of_cons in Hx as [Hx|Hx]; [discriminate Hx|].
    apply list_elem_of_singleton in Hx as [= ->]. by vm_compute.
  - cbn. apply elem_of_cons. right. apply elem_of_cons. by left.
Defined.

(** X15. Every row the classifier puts on the page list passes the
    [Page.goto] filter of the page-level retry, so the retry, run on the
    file the classifier leaves (none when the list is empty), appends one
    row for each listed [row_index] its ledger does not hold yet. *)
Theorem page_list_is_retried (worker_files : list ledger_file)
    (portal : Z -> visit) (out : ledger_file) :
  let page_list := (Classifier.collect worker_files).1 in
  filter (fun r => RerunPage.matches_page_goto (PyStr.str_of_cell (error r)) = true)
         page_list = page_list /\
  resumes (row_index <$> page_list) out
          (RerunPage.main (written_if_any page_list) portal out).
Proof.
  intros page_list.
  assert (Hkeep : filter (fun r => RerunPage.matches_page_goto
                                     (PyStr.str_of_cell (error r)) = true)
                         page_list = page_list).
  { unfold page_list, Classifier.collect. rewrite collect_fold. simpl.
    induction (concat (rows_of <$> worker_files)) as [|r rows IH]; [done|].
    destruct (Classifier.is_page_failure r) eqn:Hp.
    - rewrite (filter_cons_True (fun r => Classifier.is_page_failure r = true)) by done.
      apply page_failure_iff in Hp. unfold Classifier.error_text in Hp.
      rewrite filter_cons_True by (by apply page_goto_matches, contains_strip).
      by rewrite IH.
    - rewrite (filter_cons_False (fun r => Classifier.is_page_failure r = true))
        by (rewrite Hp; done).
      apply IH. }
  split; [done|].
  pose proof (rerun_page_resumes (written_if_any page_list) portal out) as H.
  destruct page_list as [|r rows]; [exact H|].
  change (rows_of (written_if_any (r :: rows))) with (r :: rows) in H.
  rewrite Hkeep in H. exact H.
Qed.

(** X16. A harvest whose crawl stops on a next button that raises writes a
    row with the error, a count of 0 and no position, whatever icons were
    resolved before; when the error text does not contain [Page.goto], the
    classifier puts the row on neither list, so no retry visits the item. *)
Theorem crawl_failure_is_not_retried (it : item) (v : visit) (e : string) :
  goto v 1%nat = None ->
  Scrape.page_has_no_records v = false ->
  first_raise (pages v) = Some e ->
  PyStr.contains "Page.goto" (PyStr.strip (PyStr.str_of_cell e)) = false ->
  Scrape.harvest it v = set_error (blank_record it) e /\
  Classifier.collect [Some [Scrape.harvest it v]] = ([], []).
Proof.
  intros Hnav Hrec Hraise Hpat.
  assert (Hrow : Scrape.harvest it v = set_error (blank_record it) e).
  { unfold Scrape.harvest, Scrape.navigate. cbn [raised]. rewrite Hnav, Hrec.
    unfold Scrape.extract_all_pages_observations.
    by rewrite scrape_crawl_positions, Hraise. }
  split; [done|]. rewrite Hrow.
  unfold Classifier.collect. cbn [foldl]. unfold Classifier.step.
  assert (Hp : Classifier.is_page_failure (set_error (blank_record it) e) = false).
  { unfold Classifier.is_page_failure, Classifier.error_text. cbn [set_error error].
    rewrite Hpat. apply andb_false_r. }
  rewrite Hp. reflexivity.
Qed.

Lemma crawl_failure_is_not_retried_witness :
  n_observation_letters (Scrape.harvest sample_item crowded_visit) = 0 /\
  Classifier.collect [Some [Scrape.harvest sample_item crowded_visit]] = ([], []).
Proof.
  destruct (crawl_failure_is_not_retried sample_item crowded_visit
              "TimeoutError('Locator.click: Timeout 30000ms exceeded.')")
    as [Hrow Hlists]; [reflexivity..|].
  split; [by rewrite Hrow | exact Hlists].
Defined.

(** X17. The no-records test of [0.tester.py], which reads the summary twice
    and strips both reads, answers true only on pages on which the
    single-read test of the worker answers true. *)
Theorem confirmed_test_implies_single_read (v : visit) :
  Tester.page_has_no_records v = true -> Scrape.page_has_no_records v = true.
Proof.
  unfold Tester.page_has_no_records, Scrape.page_has_no_records.
  destruct (summary v) as [reads|]; [|done].
  destruct (reads 1%nat) as [t1|]; [|done].
  destruct (reads 2%nat) as [t2|]; [|done].
  case_decide as Hne; [done|].
  assert (PyStr.strip t1 = PyStr.strip t2) as <-
    by (destruct (decide (PyStr.strip t1 = PyStr.strip t2)); done).
  apply contains_strip.
Qed.

Lemma confirmed_test_implies_single_read_witness :
  Scrape.page_has_no_records empty_visit = true.
Proof. apply (confirmed_test_implies_single_read empty_visit). reflexivity. Defined.

(** ** The workers and their shards *)

(** X18. Every row a harvest worker appends carries the worker id, and its
    [row_index] is the position in the input CSV of an application of Dublin
    City Council whose stripped application number is the one of the row. *)
Theorem harvest_rows_name_dublin_applications (csv : list Scrape.application)
    (N w : Z) (portal : Z -> visit) (out : ledger_file) :
  exists appended,
    rows_of (Scrape.main csv N w portal out) = rows_of out ++ appended /\
    forall r, r ∈ appended ->
      worker_id r = w /\ 0 <= row_index r /\
      exists a, csv !! Z.to_nat (row_index r) = Some a /\
        Scrape.planning_authority a = "Dublin City Council" /\
        application_number r =
          PyStr.strip (PyStr.str_of_cell (Scrape.application_number_cell a)).
Proof.
  eexists. split; [apply scrape_main_rows|].
  intros r Hr. apply list_elem_of_fmap in Hr as ([i a] & -> & Hx).
  apply list_elem_of_filter in Hx as [_ Hx].
  assert (Hd : (i, a) ∈ Scrape.dublin_rows csv).
  { eapply elem_of_sublist; [exact Hx | apply iloc_sublist]. }
  apply dublin_rows_elem in Hd as (Hi & Ha & Hp).
  destruct (scrape_harvest_item (Scrape.item_of w (i, a)) (portal i)) as [Hw Happ].
  cbn [fst snd] in *. rewrite scrape_harvest_row_index, Hw, Happ. cbn.
  split; [done|]. split; [done|]. by exists a.
Qed.

(** X19. With [N > 0] workers started on ledger files that do not exist,
    the labels of the ledgers of workers [0 .. N-1], put end to end, are the
    CSV positions of the Dublin City Council rows in CSV order: every such
    row is harvested, by one worker, once. *)
Theorem harvest_workers_cover_dublin_rows (csv : list Scrape.application)
    (N : Z) (portal : Z -> visit) :
  0 < N ->
  concat ((fun w => labels (Scrape.main csv N w portal None)) <$> seqZ 0 N) =
  (Scrape.dublin_rows csv).*1 /\
  NoDup (concat ((fun w => labels (Scrape.main csv N w portal None)) <$> seqZ 0 N)).
Proof.
  intros HN.
  assert (E : concat ((fun w => labels (Scrape.main csv N w portal None)) <$> seqZ 0 N) =
              (Scrape.dublin_rows csv).*1).
  { transitivity
      ((concat ((fun w => Partition.df_chunk (Scrape.dublin_rows csv) N w)
                  <$> seqZ 0 N)).*1); [|by rewrite shards_concat].
    rewrite <- concat_fmap_fmap. f_equal. apply list_fmap_ext. intros _ w _.
    unfold labels. rewrite scrape_main_rows. cbn [rows_of load_done app].
    rewrite filter_all_true by (intros x; apply not_elem_of_empty).
    rewrite <- list_fmap_compose.
    apply list_fmap_ext. intros _ x _. apply scrape_harvest_row_index. }
  split; [done|]. rewrite E. apply dublin_rows_NoDup.
Qed.

Lemma harvest_workers_cover_dublin_rows_witness :
  concat ((fun w => labels (Scrape.main sample_csv 2 w (fun _ => visit_D) None))
            <$> seqZ 0 2) = [0; 2].
Proof.
  apply (harvest_workers_cover_dublin_rows sample_csv 2 (fun _ => visit_D)). lia.
Defined.

(** X20. For a worker id [0 <= w < N], the shard of a frame of [T] rows has
    [T // N] rows, and the shard of the last worker has the [T mod N] rows of
    the remainder besides. *)
Theorem shard_sizes {A : Type} (df : list A) (N w : Z) :
  0 <= w < N ->
  Z.of_nat (length (Partition.df_chunk df N w)) =
  if decide (w = N - 1)
  then Z.of_nat (length df) / N + Z.of_nat (length df) mod N
  else Z.of_nat (length df) / N.
Proof.
  intros Hw. rewrite df_chunk_length by done.
  unfold Partition.start, Partition.stop, Partition.chunk.
  pose proof (Z.div_mod (Z.of_nat (length df)) N ltac:(lia)) as Hdm.
  case_decide; subst; nia.
Qed.

Lemma shard_sizes_witness :
  Z.of_nat (length (Partition.df_chunk [1; 2; 3; 4; 5; 6; 7; 8; 9; 10] 3 2)) = 4.
Proof. apply (shard_sizes [1; 2; 3; 4; 5; 6; 7; 8; 9; 10] 3 2). lia. Defined.

(** X21. When the frame has fewer rows than there are workers, the shard of
    every worker but the last is empty and the last worker gets the whole
    frame. *)
Theorem few_rows_go_to_last_worker {A : Type} (df : list A) (N w : Z) :
  Z.of_nat (length df) < N -> 0 <= w < N ->
  Partition.df_chunk df N w = if decide (w = N - 1) then df else [].
Proof.
  intros HT Hw. unfold Partition.df_chunk.
  assert (Hc : Partition.chunk (Z.of_nat (length df)) N = 0)
    by (apply Z.div_small; lia).
  unfold Partition.start, Partition.stop. rewrite Hc, !Z.mul_0_r.
  case_decide.
  - rewrite iloc_in_range by lia. rewrite Z.sub_0_r, Nat2Z.id.
    change (Z.to_nat 0) with 0%nat. rewrite drop_0. apply firstn_all.
  - by rewrite iloc_in_range by lia.
Qed.

Lemma few_rows_go_to_last_worker_witness :
  Partition.df_chunk [1; 2; 3] 8 2 = [] /\ Partition.df_chunk [1; 2; 3] 8 7 = [1; 2; 3].
Proof.
  split.
  - apply (few_rows_go_to_last_worker [1; 2; 3] 8 2); simpl; lia.
  - apply (few_rows_go_to_last_worker [1; 2; 3] 8 7); simpl; lia.
Defined.

(** X22. With [N > 0] workers of the sharded round 2 started on ledger
    files that do not exist, on an input file all of whose
    [observation_urls] cells are text, every worker reaches the end of its
    shard, and the ledgers of workers [0 .. N-1], put end to end, hold one
    row for each row of the input, in input order: the input row as this
    round writes it. *)
Theorem round2_workers_cover_input (ty : Round2.dtypes) (input : list Row) (N : Z)
    (portal : Z -> visit) :
  0 < N ->
  Forall (fun r => Round2.readable ty r = true) input ->
  Forall (fun w => Round2.completed (Round2.main ty input N w portal None) = true)
         (seqZ 0 N) /\
  concat ((fun w => rows_of (Round2.ledger (Round2.main ty input N w portal None)))
            <$> seqZ 0 N) =
  (fun r => Round2.written ty r (portal (row_index r))) <$> input.
Proof.
  intros HN Hall.
  assert (Hshard : forall w,
    Round2.completed (Round2.main ty input N w portal None) = true /\
    rows_of (Round2.ledger (Round2.main ty input N w portal None)) =
      (fun r => Round2.written ty r (portal (row_index r))) <$>
        Partition.df_chunk input N w).
  { intros w. unfold Round2.main.
    by apply (loop_readable ty portal _ None), iloc_Forall. }
  split.
  - apply Forall_forall. intros w _. apply Hshard.
  - transitivity
      ((fun r => Round2.written ty r (portal (row_index r))) <$>
         concat ((fun w => Partition.df_chunk input N w) <$> seqZ 0 N));
      [|by rewrite shards_concat].
    rewrite <- concat_fmap_fmap. f_equal. apply list_fmap_ext. intros _ w _.
    apply Hshard.
Qed.

Lemma round2_workers_cover_input_witness :
  concat ((fun w => rows_of (Round2.ledger
            (Round2.main text_columns [row_D; B5] 2 w (fun _ => visit_D_retry) None)))
            <$> seqZ 0 2) =
  [Round2.written text_columns row_D visit_D_retry;
   Round2.written text_columns B5 visit_D_retry].
Proof.
  apply (round2_workers_cover_input text_columns [row_D; B5] 2 (fun _ => visit_D_retry)).
  - lia.
  - repeat constructor.
Defined.

(** X23. Relaunching the harvest worker, the page-level retry or the
    download-level retry on the ledger file a run of it finished leaves the
    file as it is, whatever the portal answers the second time: every item
    is found in the set of rows already written. *)
Theorem finished_pass_relaunch_appends_nothing (csv : list Scrape.application)
    (n_workers worker : Z) (page_worklist : ledger_file)
    (download_worklist : option (list Classifier.DownloadFailure))
    (portal portal' : Z -> visit) (out : ledger_file) :
  (let finished := Scrape.main csv n_workers worker portal out in
   Scrape.main csv n_workers worker portal' finished = finished) /\
  (let finished := RerunPage.main page_worklist portal out in
   RerunPage.main page_worklist portal' finished = finished) /\
  (let finished := RerunDownload.main download_worklist portal out in
   RerunDownload.main download_worklist portal' finished = finished).
Proof.
  split; [|split]; intros finished.
  - unfold Scrape.main at 1. apply scrape_skip. intros x Hx.
    eapply resumes_done; [apply scrape_resumes|].
    by apply list_elem_of_fmap_2.
  - pose proof (rerun_page_resumes page_worklist portal out) as Hres.
    fold finished in Hres.
    unfold RerunPage.main at 1. destruct page_worklist as [rows|]; [|done].
    cbn [rows_of] in Hres. cbv zeta.
    destruct (filter _ rows) as [|r df] eqn:E; [done|].
    rewrite rerun_page_skip; [done|]. intros x Hx.
    eapply resumes_done; [exact Hres|]. by apply list_elem_of_fmap_2.
  - pose proof (rerun_download_resumes download_worklist portal out) as Hres.
    fold finished in Hres.
    unfold RerunDownload.main at 1. destruct download_worklist as [[|w df]|]; [done| |done].
    rewrite rerun_download_skip; [done|]. intros x Hx.
    eapply resumes_done; [exact Hres|]. by apply (list_elem_of_fmap_2 Classifier.df_row_index).
Qed.

(** ** The merges *)


(** X25. The second merge, on a merged file whose labels are distinct, adds
    and drops no label; a row no round-2 file mentions is kept as it is; a
    row some round-2 file mentions keeps every column but
    [observation_urls], which becomes that of the last round-2 row with its
    label, in the order of the worker files. *)
Theorem merge_again_patches_urls (merged : list Row) (worker_files : list ledger_file) :
  NoDup (row_index <$> merged) ->
  let out := MergeAgain.merge merged worker_files in
  let fixes := concat (rows_of <$> worker_files) in
  dom out = list_to_set (row_index <$> merged) /\
  (forall r, r ∈ merged -> row_index r ∉ (row_index <$> fixes) ->
     out !! row_index r = Some r) /\
  (forall r, r ∈ merged -> row_index r ∈ (row_index <$> fixes) ->
     exists p, p ∈ fixes /\ row_index p = row_index r /\
       last_patch fixes (row_index r) = Some (observation_urls p) /\
       out !! row_index r = Some (set_observation_urls r (observation_urls p))).
Proof.
  intros Hnd out fixes.
  assert (Hlook : forall k, out !! k = patched fixes k <$> first_row merged k).
  { intros k. unfold out, MergeAgain.merge.
    rewrite files_fold_patch, patch_fold_lookup. by rewrite set_index_first_row. }
  split; [|split].
  - apply set_eq. intros k. rewrite elem_of_dom, Hlook, fmap_is_Some, elem_of_list_to_set.
    rewrite <- not_eq_None_Some, first_row_None.
    destruct (decide (k ∈ row_index <$> merged)); tauto.
  - intros r Hr Hout. rewrite Hlook, first_row_NoDup by done. simpl.
    unfold patched. by rewrite last_patch_absent.
  - intros r Hr Hin. destruct (last_patch_present _ _ Hin) as (p & Hp & Hk & Hlast).
    exists p. split; [done|]. split; [done|]. split; [done|].
    rewrite Hlook, first_row_NoDup by done. simpl. unfold patched. by rewrite Hlast.
Qed.

Lemma merge_again_patches_urls_witness :
  MergeAgain.merge [B5; row_D] [None; Some [P5]] !! 7 = Some row_D.
Proof.
  destruct (merge_again_patches_urls [B5; row_D] [None; Some [P5]]) as (_ & Hkeep & _).
  - apply NoDup_cons. split; [|apply NoDup_singleton].
    intros H%list_elem_of_singleton. discriminate H.
  - apply (Hkeep row_D).
    + apply elem_of_cons. right. apply list_elem_of_singleton. reflexivity.
    + intros H%list_elem_of_singleton. discriminate H.
Defined.
